(** * Verification of the Grand Challenge algorithm client
    (tutorials/GC_algorithm_API.py)

    The Python module defines a capped exponential back-off iterator
    ([ThrottledRetries]) and a sequential job driver
    ([GrandChallengeAlgorithm]) that uploads images, polls twice with that
    iterator, and downloads one mask file.

    The embedding is shallow.  Statements that have an effect (sleeping,
    printing, calling the API client, touching the file system, raising) live
    in a state-and-exception monad [M]; its state is the state of the remote
    service together with the chronological trace of everything the program
    did.  A Python float is the rational number ([Q]) it denotes, and
    an operation on floats rounds its exact result to the nearest double
    ([Double.nearest]).  Library calls ([time.sleep], [print], the client, the
    file system) are events of the trace that carry their arguments.

    The retry policy is modelled twice.  [pause] and [exhaust_float] follow
    the Python arithmetic of line 16 to the letter: [1.5 ** n] and the
    product are doubles, rounded to nearest, [1.5 ** n] raises OverflowError
    once it exceeds the doubles, and [time.sleep] raises ValueError for a
    negative argument.  [backoff] and [sleep] are the same computation where
    nothing is rounded and nothing raises; they serve the driver, whose only
    policy (25 attempts, 15 seconds) stays within that range
    ([driver_policy_exact]). *)

From Stdlib Require Import ZArith QArith Qminmax Qabs Qpower Qreduction.
From Stdlib Require Import String Ascii List Bool Lia.
Import ListNotations.

Local Open Scope string_scope.
Local Open Scope list_scope.
Local Open Scope Z_scope.

(* ================================================================== *)
(** * Python exceptions *)

(** The exception classes the module raises or catches. *)
Inductive exn : Type :=
| ValueError (msg : string)
| RuntimeError (msg : string)
| TimeoutError
| IOError
| IndexError
| KeyError
| OverflowError.

(** Class tests as the [except] clauses perform them.  [IOError] is an alias
    of [OSError], and the built-in [TimeoutError] derives from [OSError], so
    [except IOError] catches both. *)
Definition is_IOError (e : exn) : bool :=
  match e with IOError | TimeoutError => true | _ => false end.

Definition is_IndexError (e : exn) : bool :=
  match e with IndexError => true | _ => false end.

Definition is_KeyError (e : exn) : bool :=
  match e with KeyError => true | _ => false end.

Definition is_RuntimeError (e : exn) : bool :=
  match e with RuntimeError _ => true | _ => false end.

Definition is_TimeoutError (e : exn) : bool :=
  match e with TimeoutError => true | _ => false end.

(** What a statement ends with: a value, or a raised exception. *)
Inductive outcome (A : Type) : Type :=
| Return (a : A)
| Raise (e : exn).
Arguments Return {A} a.
Arguments Raise {A} e.

(* ================================================================== *)
(** * Observable events and the effect monad *)

(** Calls made to the API client ([gcapi.Client]). *)
Inductive request : Type :=
| ReqAlgorithms (slug : string)
| ReqUploadCases (files : list string) (algorithm : string)
| ReqSessionDetail (pk : string)
| ReqUrl (url : string)
| ReqJobsPage (algorithm_uuid : string) (input_image : string) (limit : Z).

Inductive event : Type :=
| EvSleep (seconds : Q)                       (* time.sleep(seconds) *)
| EvYield (n : Z)                             (* the generator hands out n *)
| EvPrint (msg : string)                      (* print(msg) *)
| EvRequest (rq : request)                    (* a call to the client *)
| EvMkdir (dir : string)                      (* mkdir(parents, exist_ok) *)
| EvOpen (path : string)                      (* open(path, "wb") *)
| EvWrite (path : string) (data : list Byte.byte).  (* fp.write(data) *)

Record World (R : Type) : Type := mkWorld {
  remote : R;
  trace : list event
}.
Arguments mkWorld {R} remote trace.
Arguments remote {R} w.
Arguments trace {R} w.

(** The world after the program has additionally done [evs]. *)
Definition log {R} (evs : list event) (w : World R) : World R :=
  mkWorld (remote w) (trace w ++ evs).

Definition M (R A : Type) : Type := World R -> outcome A * World R.

Definition ret {R A} (a : A) : M R A := fun w => (Return a, w).

Definition raise {R A} (e : exn) : M R A := fun w => (Raise e, w).

Definition bind {R A B} (m : M R A) (k : A -> M R B) : M R B :=
  fun w =>
    match m w with
    | (Return a, w') => k a w'
    | (Raise e, w') => (Raise e, w')
    end.

Notation "x <- m ;; k" := (bind m (fun x => k))
  (at level 61, m at next level, right associativity).
Notation "m ;; k" := (bind m (fun _ => k))
  (at level 61, right associativity).

(** [try: m  except <classes>: h e]; an exception no clause matches
    propagates. [handler e = None] says that no clause matches [e]. *)
Definition try_except {R A} (m : M R A) (handler : exn -> option (M R A))
  : M R A :=
  fun w =>
    match m w with
    | (Return a, w') => (Return a, w')
    | (Raise e, w') =>
        match handler e with
        | Some h => h w'
        | None => (Raise e, w')
        end
    end.

Definition emit {R} (ev : event) : M R unit :=
  fun w => (Return tt, log [ev] w).

(** [time.sleep(seconds)] for an argument that is not negative; the call
    with any double is [time_sleep] below. *)
Definition sleep {R} (seconds : Q) : M R unit := emit (EvSleep seconds).
Definition print {R} (msg : string) : M R unit := emit (EvPrint msg).

(* ================================================================== *)
(** * ThrottledRetries *)

(** [self.attempts], [self.interval]. *)
Record ThrottledRetries : Type := mkThrottledRetries {
  attempts : Z;
  interval : Q
}.

(** [range(n)]: [0, 1, ..., n-1], empty when [n <= 0]. *)
Definition range (n : Z) : list Z := map Z.of_nat (seq 0 (Z.to_nat n)).

(** [min(self.interval * 1.5 ** n, 300)] where the power and the product
    are exact, as they are for the driver's policy; [delay] below is the
    value in double precision. *)
Definition backoff (self : ThrottledRetries) (n : Z) : Q :=
  Qmin (interval self * (3 # 2) ^ n) 300.

(** A generator object made by [__iter__]: the frame's [self] and the range
    iterator of its [for] statement. Every call of [__iter__] makes a new
    one; [self] is not written to. *)
Record generator : Type := mkGenerator {
  gi_self : ThrottledRetries;
  gi_range : list Z
}.

Definition __iter__ (self : ThrottledRetries) : generator :=
  mkGenerator self (range (attempts self)).

(** The generator's body from the top of one loop round to its [yield]. *)
Definition resume {R} (self : ThrottledRetries) (n : Z) : M R Z :=
  (if 0 <? n then sleep (backoff self n) else ret tt) ;;
  emit (EvYield n) ;;
  ret n.

(** [next(g)]: [None] is [StopIteration]. *)
Definition next {R} (g : generator) : M R (option Z * generator) :=
  match gi_range g with
  | [] => ret (None, g)
  | n :: rest =>
      x <- resume (gi_self g) n ;;
      ret (Some x, mkGenerator (gi_self g) rest)
  end.

(** How the body of a [for] statement hands control back. *)
Inductive flow (A : Type) : Type :=
| Continue
| Break (a : A).
Arguments Continue {A}.
Arguments Break {A} a.

(** [for x in <generator>: body  else: orelse], where the statement is left
    either by [break] (carrying the value of the local variables that are
    read afterwards), by an exception, or through its [else] suite. *)
Fixpoint for_loop {R A} (self : ThrottledRetries) (pending : list Z)
    (body : Z -> M R (flow A)) (orelse : M R A) : M R A :=
  match pending with
  | [] => orelse
  | n :: rest =>
      x <- resume self n ;;
      c <- body x ;;
      match c with
      | Break a => ret a
      | Continue => for_loop self rest body orelse
      end
  end.

Definition for_else {R A} (g : generator)
    (body : Z -> M R (flow A)) (orelse : M R A) : M R A :=
  for_loop (gi_self g) (gi_range g) body orelse.

(** [for _ in self: pass]: the policy iterated to its end. *)
Definition exhaust {R} (self : ThrottledRetries) : M R unit :=
  for_else (__iter__ self) (fun _ => ret Continue) (ret tt).

(** What the generator does to hand out index [n]. *)
Definition round_events (self : ThrottledRetries) (n : Z) : list event :=
  if 0 <? n then [EvSleep (backoff self n); EvYield n] else [EvYield n].

(** The indices handed out in a trace, and the sleeps of a trace. *)
Fixpoint slots (t : list event) : list Z :=
  match t with
  | [] => []
  | EvYield n :: t' => n :: slots t'
  | _ :: t' => slots t'
  end.

Fixpoint sleeps (t : list event) : list Q :=
  match t with
  | [] => []
  | EvSleep q :: t' => q :: sleeps t'
  | _ :: t' => sleeps t'
  end.

(* ================================================================== *)
(** * Python floats *)

(** Doubles as the rationals they denote.  [nearest x] is the double
    nearest to the real number [x], ties to even, with gradual underflow;
    it is what a correctly rounded operation returns when its exact result
    is [x] and [x] does not overflow. *)
Module Double.

(** From this magnitude on a real number rounds to infinity:
    2^1024 - 2^970, half an ulp above the largest double. *)
Definition overflow_threshold : Q := inject_Z (2 ^ 1024 - 2 ^ 970).

Definition overflows (x : Q) : bool := Qle_bool overflow_threshold (Qabs x).

(** [2^e <= n / d] *)
Definition at_least_pow2 (n d e : Z) : bool :=
  if 0 <=? e then d * 2 ^ e <=? n else d <=? n * 2 ^ (- e).

(** [floor (log2 (n / d))] for positive [n] and [d]. *)
Definition exponent (n d : Z) : Z :=
  let e0 := Z.log2 n - Z.log2 d in
  if at_least_pow2 n d e0 then e0 else e0 - 1.

(** The integer nearest to [a / b], ties to even. *)
Definition round_half_even (a b : Z) : Z :=
  let q := a / b in
  let r := a mod b in
  match 2 * r ?= b with
  | Lt => q
  | Gt => q + 1
  | Eq => if Z.even q then q else q + 1
  end.

(** The nearest multiple of the unit in the last place of [n / d]: 53
    significant bits, and never below 2^-1074. *)
Definition round_positive (n d : Z) : Q :=
  let u := Z.max (exponent n d - 52) (-1074) in
  if 0 <=? u
  then inject_Z (round_half_even n (d * 2 ^ u) * 2 ^ u)
  else Qmake (round_half_even (n * 2 ^ (- u)) d) (Z.to_pos (2 ^ (- u))).

Definition nearest (x : Q) : Q :=
  let y := Qred x in
  match Qnum y with
  | Z0 => 0%Q
  | Zpos p => Qred (round_positive (Zpos p) (Zpos (Qden y)))
  | Zneg p => Qred (Qopp (round_positive (Zpos p) (Zpos (Qden y))))
  end.

End Double.

(** The value of a float expression: a double or an infinity. *)
Inductive number : Type :=
| Finite (q : Q)
| Infinite (negative : bool).

Definition lift {R A} (o : outcome A) : M R A := fun w => (o, w).

(** [1.5 ** n]: [float.__pow__] raises OverflowError when the result is
    out of range. *)
Definition float_pow (n : Z) : outcome Q :=
  if Double.overflows ((3 # 2) ^ n) then Raise OverflowError
  else Return (Double.nearest ((3 # 2) ^ n)).

(** The conversion of the left operand of [self.interval * <float>]: an
    int too large for a double raises OverflowError; a double is kept. *)
Definition float_of (x : Q) : outcome Q :=
  if Double.overflows x then Raise OverflowError
  else Return (Double.nearest x).

(** The product of two doubles: rounded, or an infinity; it does not
    raise. *)
Definition float_mul (a b : Q) : number :=
  if Double.overflows (a * b) then Infinite (negb (Qle_bool 0 (a * b)))
  else Finite (Double.nearest (a * b)).

(** [min(x, 300)]: 300 when [300 < x], else [x]. *)
Definition min_300 (x : number) : number :=
  match x with
  | Finite q => Finite (Qmin q 300)
  | Infinite false => Finite 300
  | Infinite true => Infinite true
  end.

(** [time.sleep(x)]: ValueError for a negative argument. *)
Definition time_sleep {R} (x : number) : M R unit :=
  match x with
  | Finite q =>
      if Qle_bool 0 q then emit (EvSleep q)
      else raise (ValueError "sleep length must be non-negative")
  | Infinite true => raise (ValueError "sleep length must be non-negative")
  | Infinite false => raise OverflowError
  end.

(** Line 16, [time.sleep(min(self.interval * 1.5 ** n, 300))], as Python
    evaluates it: the power, then the conversion and the product, then
    [min], then the call. *)
Definition pause {R} (self : ThrottledRetries) (n : Z) : M R unit :=
  p <- lift (float_pow n) ;;
  i <- lift (float_of (interval self)) ;;
  time_sleep (min_300 (float_mul i p)).

(** The duration line 16 sleeps when it raises nothing. *)
Definition delay (self : ThrottledRetries) (n : Z) : Q :=
  match min_300 (float_mul (Double.nearest (interval self))
                           (Double.nearest ((3 # 2) ^ n))) with
  | Finite q => q
  | Infinite _ => 300
  end.

(** [for _ in self: pass] with line 16 evaluated in doubles: the generator
    runs over [pending] until it is exhausted or raises. *)
Fixpoint pass_float {R} (self : ThrottledRetries) (pending : list Z)
  : M R unit :=
  match pending with
  | [] => ret tt
  | n :: rest =>
      (if 0 <? n then pause self n else ret tt) ;;
      emit (EvYield n) ;;
      pass_float self rest
  end.

Definition exhaust_float {R} (self : ThrottledRetries) : M R unit :=
  pass_float self (gi_range (__iter__ self)).

(* ================================================================== *)
(** * pathlib *)

(** [Path(filename).suffix] and [Path(filename).parent] for POSIX paths
    written with single slashes. *)
Module Pathlib.

(** The path split at its slashes, right to left: [acc] collects the
    characters of the component being read. *)
Fixpoint split_rev (s : string) (acc : string) (done : list string)
  : list string :=
  match s with
  | EmptyString => acc :: done
  | String c s' =>
      if Ascii.eqb c "/"%char
      then split_rev s' EmptyString (acc :: done)
      else split_rev s' (acc ++ String c EmptyString) done
  end.

(** Components in reverse order, without the empty ones and the ["."]
    ones, which pathlib drops. *)
Definition parts_rev (p : string) : list string :=
  filter (fun c => negb (String.eqb c EmptyString || String.eqb c "."))
         (split_rev p EmptyString []).

Definition is_absolute (p : string) : bool :=
  match p with
  | String c _ => Ascii.eqb c "/"%char
  | EmptyString => false
  end.

(** [Path(p).name] *)
Definition name (p : string) : string :=
  match parts_rev p with
  | [] => EmptyString
  | n :: _ => n
  end.

(** [s.rfind(".")]: position of the last dot. *)
Fixpoint rfind_dot (s : string) (pos : nat) (found : option nat)
  : option nat :=
  match s with
  | EmptyString => found
  | String c s' =>
      rfind_dot s' (S pos)
                (if Ascii.eqb c "."%char then Some pos else found)
  end.

(** [suffix]: [name[i:]] when [0 < i < len(name) - 1] for the last dot
    [i], else the empty string. *)
Definition suffix (p : string) : string :=
  let n := name p in
  match rfind_dot n 0 None with
  | Some i =>
      if (Nat.ltb 0 i && Nat.ltb i (String.length n - 1))%bool
      then substring i (String.length n - i) n
      else EmptyString
  | None => EmptyString
  end.

Fixpoint join (parts : list string) : string :=
  match parts with
  | [] => EmptyString
  | [x] => x
  | x :: rest => x ++ "/" ++ join rest
  end.

(** [str(Path(p).parent)] *)
Definition parent (p : string) : string :=
  let dirs := rev (tl (parts_rev p)) in
  if is_absolute p then "/" ++ join dirs
  else match dirs with
       | [] => "."
       | _ => join dirs
       end.

End Pathlib.

(* ================================================================== *)
(** * The API client *)

(** The JSON documents the driver reads, with the fields it reads. *)

(** A record of the algorithm look-up.  Either key may be missing, [None];
    the value of ["average_duration"] is a number or null, [Some None]. *)
Record algorithm_details : Type := mkAlgorithm {
  algorithm_pk : option string;           (* ["pk"] *)
  average_duration : option (option Q)    (* ["average_duration"] *)
}.

Record session : Type := mkSession {
  session_pk : string                     (* ["pk"] *)
}.

Record session_details : Type := mkSessionDetails {
  session_status : string;                (* ["status"] *)
  image_set : list string                 (* ["image_set"] *)
}.

Record file_entry : Type := mkFile {
  image_type : string;                    (* ["image_type"] *)
  file : string                           (* ["file"] *)
}.

Record image_details : Type := mkImage {
  image_pk : string;                      (* ["pk"] *)
  files : list file_entry                 (* ["files"] *)
}.

Record output : Type := mkOutput {
  image : option string                   (* ["image"], None = null *)
}.

Record job_details : Type := mkJob {
  job_status : string;                    (* ["status"] *)
  outputs : list output                   (* ["outputs"] *)
}.

(** [gcapi.Client] as the driver uses it.  [R] is the state of the remote
    service; every operation may change it and may raise.
    [algorithms] answers [client(path="algorithms", params={"slug": s})],
    [None] standing for a document without a ["results"] key;
    [get_image] and [get_content] are [client(url=u)] read as an image
    document and as a raw response ([.content]). *)
Record Client (R : Type) : Type := mkClient {
  algorithms : string -> R -> outcome (option (list algorithm_details)) * R;
  upload_cases : list string -> string -> R -> outcome session * R;
  session_detail : string -> R -> outcome session_details * R;
  get_image : string -> R -> outcome image_details * R;
  jobs_page : string -> string -> Z -> R -> outcome (list job_details) * R;
  get_content : string -> R -> outcome (list Byte.byte) * R
}.
Arguments algorithms {R} c.
Arguments upload_cases {R} c.
Arguments session_detail {R} c.
Arguments get_image {R} c.
Arguments jobs_page {R} c.
Arguments get_content {R} c.

(** A client call: logged, then answered by the remote service. *)
Definition call {R A} (rq : request) (op : R -> outcome A * R) : M R A :=
  fun w =>
    let (o, r') := op (remote w) in
    (o, mkWorld r' (trace w ++ [EvRequest rq])).

(** [xs[0]] *)
Definition first {R A} (xs : list A) : M R A :=
  match xs with
  | [] => raise IndexError
  | x :: _ => ret x
  end.

(** [d["key"]] for a key that may be missing. *)
Definition item {R A} (field : option A) : M R A :=
  match field with
  | None => raise KeyError
  | Some v => ret v
  end.

(* ================================================================== *)
(** * GrandChallengeAlgorithm *)

Record GrandChallengeAlgorithm : Type := mkGrandChallengeAlgorithm {
  algorithm : string;
  retries : ThrottledRetries;
  algorithm_uuid : string;
  headstart : Z
}.

(** Python truth value of a JSON number or null. *)
Definition truthy (x : option Q) : bool :=
  match x with
  | None => false
  | Some q => negb (Qeq_bool q 0)
  end.

(** [int(x)] on a number: rounding toward zero. *)
Definition int (x : Q) : Z := Z.quot (Qnum x) (Z.pos (Qden x)).

(** Lines 34-38: [int(average_duration * 0.75)] on the double product, the
    number being converted to a double first, or 30. *)
Definition headstart_of (average_duration : option Q) : outcome Z :=
  match average_duration with
  | Some q =>
      if truthy (Some q) then
        match float_of q with
        | Return x => Return (int (Double.nearest (x * (3 # 4))))
        | Raise e => Raise e
        end
      else Return 30
  | None => Return 30
  end.

Definition __init__ {R} (client : Client R) (api_token algorithm : string)
  : M R GrandChallengeAlgorithm :=
  let retries := mkThrottledRetries 25 15 in
  algorithm_details <- call (ReqAlgorithms algorithm)
                            (algorithms client algorithm) ;;
  algorithm_details <-
    try_except
      (match algorithm_details with
       | None => raise KeyError
       | Some results => first results
       end)
      (fun e => if (is_KeyError e || is_IndexError e)%bool
                then Some (raise (ValueError "Invalid algorithm name"))
                else None) ;;
  algorithm_uuid <- item (algorithm_pk algorithm_details) ;;
  average_duration <- item (average_duration algorithm_details) ;;
  headstart <- lift (headstart_of average_duration) ;;
  ret (mkGrandChallengeAlgorithm algorithm retries algorithm_uuid headstart).

(** The double-quote character of the f-strings. *)
Definition dquote : string := String (ascii_of_nat 34) EmptyString.

Definition quoted (s : string) : string := dquote ++ s ++ dquote.

(** [try: x = m  except <classes>: handler  else: orelse x]: exceptions of
    [m] reach the handler, those of [orelse] do not.  A statement after a
    [try] whose handlers all leave the loop body reads the same way. *)
Definition try_except_else {R A B} (m : M R A)
    (handler : exn -> option (M R B)) (orelse : A -> M R B) : M R B :=
  fun w =>
    match m w with
    | (Return a, w') => orelse a w'
    | (Raise e, w') =>
        match handler e with
        | Some h => h w'
        | None => (Raise e, w')
        end
    end.

(** [status in ("Failed", "Cancelled")] *)
Definition failed_or_cancelled (status : string) : bool :=
  (String.eqb status "Failed" || String.eqb status "Cancelled")%bool.

(** Lines 108-122, the scan of one image's files.  [Break tt] is the
    [return] of line 122, [Continue] the end of the inner loop. *)
Fixpoint download_files {R} (client : Client R) (filename : string)
    (fs : list file_entry) : M R (flow unit) :=
  match fs with
  | [] => ret Continue
  | f :: rest =>
      if negb (String.eqb (image_type f) "MHD")
      then download_files client filename rest
      else
        let output_file := filename in
        if negb (String.eqb (Pathlib.suffix output_file) ".mha")
        then raise (ValueError "Output file needs to have .mha extension")
        else
          emit (EvMkdir (Pathlib.parent output_file)) ;;
          emit (EvOpen output_file) ;;
          content <- call (ReqUrl (file f)) (get_content client (file f)) ;;
          emit (EvWrite output_file content) ;;
          ret (Break tt)
  end.

(** Lines 102-122. *)
Fixpoint _download_results {R} (client : Client R) (outputs : list output)
    (filename : string) : M R unit :=
  match outputs with
  | [] => ret tt
  | output :: rest =>
      match image output with
      | None => _download_results client rest filename
      | Some url =>
          image_details <- call (ReqUrl url) (get_image client url) ;;
          r <- download_files client filename (files image_details) ;;
          match r with
          | Break _ => ret tt
          | Continue => _download_results client rest filename
          end
      end
  end.

(** Lines 54-74: the body of the first polling loop.  [Break u] leaves the
    loop with [image_uuid = u]. *)
Definition import_body {R} (client : Client R)
    (self : GrandChallengeAlgorithm) (session : session) (_ : Z)
  : M R (flow string) :=
  try_except_else
    (call (ReqSessionDetail (session_pk session))
          (session_detail client (session_pk session)))
    (fun e => if is_IOError e then Some (ret Continue) else None)
    (fun session_details =>
       let status := session_status session_details in
       if failed_or_cancelled status then
         raise (RuntimeError ("Algorithm " ++ quoted (algorithm self)
                              ++ " could not be started"))
       else if String.eqb status "Succeeded" then
         try_except_else
           (image_url <- first (image_set session_details) ;;
            image_details <- call (ReqUrl image_url)
                                  (get_image client image_url) ;;
            ret (image_pk image_details))
           (fun e =>
              if is_IndexError e then
                Some (raise (RuntimeError
                  "Uploaded image could not be imported, not a valid image?"))
              else if is_IOError e then Some (ret Continue)
              else None)
           (fun image_uuid => ret (Break image_uuid))
       else ret Continue).

(** Lines 53-76. *)
Definition wait_for_import {R} (client : Client R)
    (self : GrandChallengeAlgorithm) (session : session) : M R string :=
  for_else (__iter__ (retries self)) (import_body client self session)
           (raise TimeoutError).

(** Lines 87-98: the body of the second polling loop. *)
Definition job_body {R} (client : Client R)
    (self : GrandChallengeAlgorithm) (image_uuid output_file : string)
    (_ : Z) : M R (flow unit) :=
  try_except_else
    (page <- call (ReqJobsPage (algorithm_uuid self) image_uuid 1)
                  (jobs_page client (algorithm_uuid self) image_uuid 1) ;;
     first page)
    (fun e => if (is_IOError e || is_IndexError e)%bool
              then Some (ret Continue) else None)
    (fun algorithm_job_details =>
       let status := job_status algorithm_job_details in
       if failed_or_cancelled status then
         raise (RuntimeError ("Algorithm " ++ quoted (algorithm self)
                              ++ " failed"))
       else if String.eqb status "Succeeded" then
         print ("Downloading results of algorithm "
                ++ quoted (algorithm self)) ;;
         _download_results client (outputs algorithm_job_details)
                           output_file ;;
         ret (Break tt)
       else ret Continue).

(** Lines 86-100. *)
Definition wait_for_job {R} (client : Client R)
    (self : GrandChallengeAlgorithm) (image_uuid output_file : string)
  : M R unit :=
  for_else (__iter__ (retries self))
           (job_body client self image_uuid output_file)
           (raise TimeoutError).

(** Lines 40-100. *)
Definition run {R} (client : Client R) (self : GrandChallengeAlgorithm)
    (input_files : list string) (output_file : string) : M R unit :=
  print ("Uploading to grand-challenge.org to run "
         ++ quoted (algorithm self)) ;;
  session <- call (ReqUploadCases input_files (algorithm self))
                  (upload_cases client input_files (algorithm self)) ;;
  print ("Waiting for image import to finish for algorithm "
         ++ quoted (algorithm self)) ;;
  sleep 30 ;;
  image_uuid <- wait_for_import client self session ;;
  print ("Waiting for results of algorithm " ++ quoted (algorithm self)) ;;
  sleep (inject_Z (headstart self)) ;;
  wait_for_job client self image_uuid output_file.

(* ================================================================== *)
(** * A scripted remote service

    A remote service that answers the two polling calls from lists, one
    answer a call, and every other call from a fixed table.  Once a list is
    used up the call fails with [IOError]. *)

Record Script : Type := mkScript {
  sc_algorithms : outcome (option (list algorithm_details));
  sc_session : outcome session;
  sc_polls : list (outcome session_details);
  sc_images : string -> outcome image_details;
  sc_jobs : list (outcome (list job_details));
  sc_contents : string -> outcome (list Byte.byte)
}.

Definition scripted : Client Script :=
  mkClient Script
    (fun _ s => (sc_algorithms s, s))
    (fun _ _ s => (sc_session s, s))
    (fun _ s =>
       match sc_polls s with
       | [] => (Raise IOError, s)
       | o :: rest =>
           (o, mkScript (sc_algorithms s) (sc_session s) rest (sc_images s)
                        (sc_jobs s) (sc_contents s))
       end)
    (fun url s => (sc_images s url, s))
    (fun _ _ _ s =>
       match sc_jobs s with
       | [] => (Raise IOError, s)
       | o :: rest =>
           (o, mkScript (sc_algorithms s) (sc_session s) (sc_polls s)
                        (sc_images s) rest (sc_contents s))
       end)
    (fun url s => (sc_contents s url, s)).

(** A remote service without state that gives the first answer of each
    script list to every polling call. *)
Definition steady (s : Script) : Client unit :=
  mkClient unit
    (fun _ r => (sc_algorithms s, r))
    (fun _ _ r => (sc_session s, r))
    (fun _ r => (hd (Raise IOError) (sc_polls s), r))
    (fun url r => (sc_images s url, r))
    (fun _ _ _ r => (hd (Raise IOError) (sc_jobs s), r))
    (fun url r => (sc_contents s url, r)).

(* ================================================================== *)
(** * Vocabulary of the statements *)

(** [client(url=u)] as it shows in a trace. *)
Definition fetch (url : string) : event := EvRequest (ReqUrl url).

(** The file-system events of a trace, and the data written. *)
Definition is_mutation (ev : event) : bool :=
  match ev with
  | EvMkdir _ | EvOpen _ | EvWrite _ _ => true
  | _ => false
  end.

Definition mutations (t : list event) : list event := filter is_mutation t.

Fixpoint writes (t : list event) : list (string * list Byte.byte) :=
  match t with
  | [] => []
  | EvWrite p d :: t' => (p, d) :: writes t'
  | _ :: t' => writes t'
  end.

(** The client calls of a trace. *)
Fixpoint requests (t : list event) : list request :=
  match t with
  | [] => []
  | EvRequest rq :: t' => rq :: requests t'
  | _ :: t' => requests t'
  end.

(** [file["image_type"] == "MHD"] *)
Definition is_mhd (f : file_entry) : bool := String.eqb (image_type f) "MHD".

(** The image references of a sequence of outputs, in order. *)
Definition image_urls (outs : list output) : list string :=
  flat_map (fun o => match image o with Some u => [u] | None => [] end) outs.

(** An output that yields no MHD file: it has no image, or its image
    document is served and lists no file of type MHD. *)
Definition barren {R} (client : Client R) (o : output) : Prop :=
  forall url, image o = Some url ->
  forall r, exists d r',
    get_image client url r = (Return d, r') /\
    existsb is_mhd (files d) = false.

(** A status that ends neither polling loop. *)
Definition pending_status (status : string) : bool :=
  (negb (failed_or_cancelled status)
   && negb (String.eqb status "Succeeded"))%bool.

(** An answer to the session poll that reaches no terminal status. *)
Definition import_pending (o : outcome session_details) : bool :=
  match o with
  | Raise e => is_IOError e
  | Return d => pending_status (session_status d)
  end.

(** An answer to the job poll that reaches no terminal status. *)
Definition job_pending (o : outcome (list job_details)) : bool :=
  match o with
  | Raise e => (is_IOError e || is_IndexError e)%bool
  | Return [] => true
  | Return (j :: _) => pending_status (job_status j)
  end.

(** The indices handed out by a second complete pass over a policy object
    that a first pass has already consumed to its end. *)
Definition second_pass_slots {R} (self : ThrottledRetries) (w : World R)
  : list Z :=
  let w1 := snd (exhaust self w) in
  let w2 := snd (exhaust self w1) in
  slots (skipn (length (trace w1)) (trace w2)).

(** The claim that a wrong extension is rejected before any input or
    output: the error is raised and the world is as it was. *)
Definition rejects_before_io {R} (client : Client R) (outs : list output)
    (filename : string) (w : World R) : Prop :=
  exists msg,
    _download_results client outs filename w = (Raise (ValueError msg), w).

(** The messages of the two [RuntimeError]s of the import loop. *)
Definition not_started_message (algorithm : string) : string :=
  "Algorithm " ++ quoted algorithm ++ " could not be started".

Definition not_imported_message : string :=
  "Uploaded image could not be imported, not a valid image?".

Definition extension_message : string :=
  "Output file needs to have .mha extension".

(* ================================================================== *)
(** * Sample data *)

(** A driver as [__init__] builds it for an algorithm whose average
    duration is 100 seconds. *)
Definition sample_driver : GrandChallengeAlgorithm :=
  mkGrandChallengeAlgorithm "lungs" (mkThrottledRetries 25 15) "alg-1" 75.

Definition sample_session : session := mkSession "upload-1".

(** An image document with a JPEG file and an MHD file. *)
Definition sample_image : image_details :=
  mkImage "image-1" [mkFile "JPEG" "thumb-url"; mkFile "MHD" "mask-url"].

(** An image document without an MHD file. *)
Definition plain_image : image_details :=
  mkImage "image-0" [mkFile "JPEG" "thumb-url"].

Definition sample_mask : list Byte.byte := [Byte.x4d; Byte.x48; Byte.x41].

(** The service: algorithm "lungs" is known, the upload is accepted, the
    image at "plain-url" has no MHD file and every other one is
    [sample_image], every content is [sample_mask]; the polls are answered
    from [polls] and [jobs]. *)
Definition sample_script (polls : list (outcome session_details))
    (jobs : list (outcome (list job_details))) : Script :=
  mkScript
    (Return (Some [mkAlgorithm (Some "alg-1") (Some (Some (inject_Z 100)))]))
    (Return sample_session)
    polls
    (fun url => if String.eqb url "plain-url"
                then Return plain_image else Return sample_image)
    jobs
    (fun _ => Return sample_mask).

(** A service that answers no poll, with nothing done yet, and its
    state-free variant. *)
Definition quiet_world : World Script := mkWorld (sample_script [] []) [].

Definition quiet : Client unit := steady (sample_script [] []).

Definition start : World unit := mkWorld tt [].

(** The polls are answered by an I/O error, then "Queued", then
    "Succeeded" with an image reference. *)
Definition retried_world : World Script :=
  mkWorld (sample_script
             [Raise IOError;
              Return (mkSessionDetails "Queued" []);
              Return (mkSessionDetails "Succeeded" ["image-url"])] [])
          [].

(** The first poll reports "Cancelled". *)
Definition cancelled_world : World Script :=
  mkWorld (sample_script [Return (mkSessionDetails "Cancelled" [])] []) [].

(** The session is "Succeeded" but lists no image. *)
Definition no_image_world : World Script :=
  mkWorld (sample_script [Return (mkSessionDetails "Succeeded" [])] []) [].

(** The session is "Queued" for 25 polls and "Succeeded" at the next one;
    the job page is empty for 25 polls and lists a finished job at the
    next one. *)
Definition late_world : World Script :=
  mkWorld (sample_script
             (repeat (Return (mkSessionDetails "Queued" [])) 25
              ++ [Return (mkSessionDetails "Succeeded" ["image-url"])])
             (repeat (Return []) 25
              ++ [Return [mkJob "Succeeded" [mkOutput (Some "result-url")]]]))
          [].

(** The session is "Succeeded" at the first poll; the job page is empty
    for 25 polls and lists a finished job at the next one. *)
Definition imported_world : World Script :=
  mkWorld (sample_script
             (Return (mkSessionDetails "Succeeded" ["image-url"])
              :: sc_polls (remote late_world))
             (sc_jobs (remote late_world)))
          [].

(** A service whose algorithm record has the identifier "alg-1" and
    [average] under the key "average_duration" ([None]: no such key). *)
Definition average_service (average : option (option Q)) : Client unit :=
  steady (mkScript (Return (Some [mkAlgorithm (Some "alg-1") average]))
                   (Return sample_session) []
                   (fun _ => Return sample_image) []
                   (fun _ => Return sample_mask)).

(* ================================================================== *)
(** * Further vocabulary and sample services *)

(** The next [k] session polls, from the service's state [r] on, reach no
    terminal status. *)
Fixpoint import_stalls {R} (client : Client R) (pk : string) (k : nat)
    (r : R) : bool :=
  match k with
  | O => true
  | S k' =>
      let (o, r') := session_detail client pk r in
      (import_pending o && import_stalls client pk k' r')%bool
  end.

(** The next [k] job polls, from the service's state [r] on, reach no
    terminal status. *)
Fixpoint job_stalls {R} (client : Client R)
    (algorithm_uuid image_uuid : string) (k : nat) (r : R) : bool :=
  match k with
  | O => true
  | S k' =>
      let (o, r') := jobs_page client algorithm_uuid image_uuid 1 r in
      (job_pending o
       && job_stalls client algorithm_uuid image_uuid k' r')%bool
  end.

(** The indices handed out by a second complete pass, in doubles, over a
    policy object that a first pass has consumed to its end. *)
Definition second_pass_slots_float {R} (self : ThrottledRetries)
    (w : World R) : list Z :=
  let w1 := snd (exhaust_float self w) in
  let w2 := snd (exhaust_float self w1) in
  slots (skipn (length (trace w1)) (trace w2)).

(** What the generator does in doubles to hand out index [n], when line
    16 raises nothing. *)
Definition round_float (self : ThrottledRetries) (n : Z) : list event :=
  if 0 <? n then [EvSleep (delay self n); EvYield n] else [EvYield n].

(** The total of a list of durations. *)
Definition Qsum (l : list Q) : Q := fold_right Qplus 0%Q l.

(** The polls of the two loops among the client calls of a trace. *)
Definition is_session_poll (rq : request) : bool :=
  match rq with ReqSessionDetail _ => true | _ => false end.

Definition is_job_poll (rq : request) : bool :=
  match rq with ReqJobsPage _ _ _ => true | _ => false end.

Definition session_polls (t : list event) : list request :=
  filter is_session_poll (requests t).

Definition job_polls (t : list event) : list request :=
  filter is_job_poll (requests t).

(** What the download step does between finding the mask and writing it:
    lines 118-120 up to the call of [fp.write]. *)
Definition opening (filename url : string) : list event :=
  [EvMkdir (Pathlib.parent filename); EvOpen filename; fetch url].

(** The f-string messages of [run]. *)
Definition uploading_message (algorithm : string) : string :=
  "Uploading to grand-challenge.org to run " ++ quoted algorithm.

Definition importing_message (algorithm : string) : string :=
  "Waiting for image import to finish for algorithm " ++ quoted algorithm.

Definition waiting_message (algorithm : string) : string :=
  "Waiting for results of algorithm " ++ quoted algorithm.

Definition downloading_message (algorithm : string) : string :=
  "Downloading results of algorithm " ++ quoted algorithm.

Definition failed_message (algorithm : string) : string :=
  "Algorithm " ++ quoted algorithm ++ " failed".

(** The events of the download step: document and content fetches and
    file-system events. *)
Definition is_download_event (ev : event) : bool :=
  match ev with
  | EvRequest (ReqUrl _) | EvMkdir _ | EvOpen _ | EvWrite _ _ => true
  | _ => false
  end.

(** The upload is accepted as session [s] and the first session poll
    reports "Succeeded" with first image reference [url], which resolves to
    the document [img]; [r3] is the service's state after that. *)
Definition imports_at_once {R} (client : Client R)
    (self : GrandChallengeAlgorithm) (input_files : list string)
    (w : World R) (s : session) (url : string) (img : image_details)
    (r3 : R) : Prop :=
  exists r1 d r2 more,
    upload_cases client input_files (algorithm self) (remote w)
    = (Return s, r1) /\
    session_detail client (session_pk s) r1 = (Return d, r2) /\
    session_status d = "Succeeded" /\
    image_set d = url :: more /\
    get_image client url r2 = (Return img, r3).

(** What [run] has done when its job loop starts after such an import. *)
Definition run_prelude (self : GrandChallengeAlgorithm)
    (input_files : list string) (s : session) (url : string) : list event :=
  [EvPrint (uploading_message (algorithm self));
   EvRequest (ReqUploadCases input_files (algorithm self));
   EvPrint (importing_message (algorithm self));
   EvSleep 30;
   EvYield 0;
   EvRequest (ReqSessionDetail (session_pk s));
   fetch url;
   EvPrint (waiting_message (algorithm self));
   EvSleep (inject_Z (headstart self))].

(** A service that does not know the algorithm. *)
Definition unknown_algorithm : Client unit :=
  steady (mkScript (Return (Some [])) (Return sample_session) []
                   (fun _ => Return sample_image) []
                   (fun _ => Return sample_mask)).

(** A service that refuses the upload. *)
Definition refusing : Client unit :=
  steady (mkScript (Return None) (Raise IOError) []
                   (fun _ => Return sample_image) []
                   (fun _ => Return sample_mask)).

(** A service on which the import succeeds and the job has the status
    [status] and the outputs [outs]. *)
Definition finished (status : string) (outs : list output) : Client unit :=
  steady (sample_script
            [Return (mkSessionDetails "Succeeded" ["image-url"])]
            [Return [mkJob status outs]]).

(** A service that imports the upload but serves no document or content
    at all: every [client(url=...)] fails with [IOError]. *)
Definition offline : Client unit :=
  steady (mkScript (Return None) (Return sample_session)
                   [Return (mkSessionDetails "Succeeded" ["image-url"])]
                   (fun _ => Raise IOError)
                   [Return [mkJob "Succeeded" [mkOutput (Some "result-url")]]]
                   (fun _ => Raise IOError)).

(** A service that serves image documents but no content. *)
Definition truncating : Client unit :=
  steady (mkScript (Return None) (Return sample_session) []
                   (fun _ => Return sample_image) []
                   (fun _ => Raise IOError)).

(** A service whose polls fail with an exception that is no I/O error. *)
Definition broken : Client unit :=
  steady (sample_script [Raise KeyError] [Raise KeyError]).

(* ================================================================== *)
(** * Facts about the monad and the traces *)

Section Effects.
Context {R : Type}.

Lemma log_nil (w : World R) : log [] w = w.
Proof. destruct w; unfold log; simpl. now rewrite app_nil_r. Qed.

Lemma log_app (a b : list event) (w : World R) :
  log b (log a w) = log (a ++ b) w.
Proof. unfold log; simpl. now rewrite app_assoc. Qed.

Lemma bind_Return {A B} (m : M R A) (k : A -> M R B) w a w' :
  m w = (Return a, w') -> bind m k w = k a w'.
Proof. unfold bind; intros ->; reflexivity. Qed.

Lemma bind_Raise {A B} (m : M R A) (k : A -> M R B) w e w' :
  m w = (Raise e, w') -> bind m k w = (Raise e, w').
Proof. unfold bind; intros ->; reflexivity. Qed.

Lemma call_eq {A} (rq : request) (op : R -> outcome A * R) w o r' :
  op (remote w) = (o, r') ->
  call rq op w = (o, mkWorld r' (trace w ++ [EvRequest rq])).
Proof. unfold call; intros ->; reflexivity. Qed.

Lemma call_mk {A} (rq : request) (op : R -> outcome A * R) r t o r' :
  op r = (o, r') ->
  call rq op (mkWorld r t) = (o, mkWorld r' (t ++ [EvRequest rq])).
Proof. unfold call; simpl; intros ->; reflexivity. Qed.

Lemma resume_eq (self : ThrottledRetries) (n : Z) (w : World R) :
  resume self n w = (Return n, log (round_events self n) w).
Proof.
  unfold resume, round_events, bind, sleep, emit, ret.
  destruct (0 <? n); simpl; [rewrite log_app|]; reflexivity.
Qed.

Lemma for_loop_cons {A} self n rest (body : Z -> M R (flow A)) orelse w :
  for_loop self (n :: rest) body orelse w =
  match body n (log (round_events self n) w) with
  | (Return (Break a), w') => (Return a, w')
  | (Return Continue, w') => for_loop self rest body orelse w'
  | (Raise e, w') => (Raise e, w')
  end.
Proof.
  simpl. rewrite (bind_Return _ _ _ _ _ (resume_eq self n w)).
  unfold bind. destruct (body n _) as [[[|a]|e] w']; reflexivity.
Qed.

(** The [for] statement written with [next], as Python runs it. *)
Lemma for_else_next {A} (g : generator) (body : Z -> M R (flow A))
      orelse w :
  for_else g body orelse w =
  (r <- next g ;;
   match fst r with
   | None => orelse
   | Some x =>
       c <- body x ;;
       match c with
       | Break a => ret a
       | Continue => for_else (snd r) body orelse
       end
   end) w.
Proof.
  destruct g as [self [|n rest]]; unfold for_else, next; simpl.
  - reflexivity.
  - unfold bind. rewrite resume_eq. reflexivity.
Qed.

End Effects.

Lemma slots_app (a b : list event) : slots (a ++ b) = slots a ++ slots b.
Proof.
  induction a as [|ev a IH]; simpl; [reflexivity|].
  destruct ev; simpl; now rewrite IH.
Qed.

Lemma slots_round (self : ThrottledRetries) (n : Z) :
  slots (round_events self n) = [n].
Proof. unfold round_events; destruct (0 <? n); reflexivity. Qed.

Lemma range_succ (n : Z) :
  1 <= n -> range n = 0 :: map Z.of_nat (seq 1 (Z.to_nat n - 1)).
Proof.
  intros H. unfold range.
  destruct (Z.to_nat n) as [|k] eqn:E; [lia|].
  simpl. now rewrite Nat.sub_0_r.
Qed.

(* ================================================================== *)
(** * Doubles *)

Lemma round_half_even_nonneg (a b : Z) :
  0 <= a -> 0 < b -> 0 <= Double.round_half_even a b.
Proof.
  intros Ha Hb. unfold Double.round_half_even.
  pose proof (Z.div_pos a b Ha Hb).
  destruct (2 * (a mod b) ?= b); [destruct (Z.even (a / b))| |]; lia.
Qed.

Lemma round_positive_nonneg (n d : Z) :
  0 < n -> 0 < d -> (0 <= Double.round_positive n d)%Q.
Proof.
  intros Hn Hd. unfold Double.round_positive.
  destruct (0 <=? Z.max (Double.exponent n d - 52) (-1074)) eqn:E.
  - apply Z.leb_le in E. unfold Qle; simpl. rewrite Z.mul_1_r.
    apply Z.mul_nonneg_nonneg; [|apply Z.pow_nonneg; lia].
    apply round_half_even_nonneg; [lia|].
    apply Z.mul_pos_pos; [lia|]. apply Z.pow_pos_nonneg; lia.
  - unfold Qle; simpl. rewrite Z.mul_1_r.
    apply round_half_even_nonneg; [|lia].
    apply Z.mul_nonneg_nonneg; [lia|]. apply Z.pow_nonneg; lia.
Qed.

(** Rounding keeps a number that is not negative so. *)
Lemma nearest_nonneg (x : Q) : (0 <= x)%Q -> (0 <= Double.nearest x)%Q.
Proof.
  intros Hx. unfold Double.nearest.
  rewrite <- (Qred_correct x) in Hx.
  destruct (Qred x) as [n d]. simpl.
  destruct n as [|p|p].
  - apply Qle_refl.
  - rewrite Qred_correct. apply round_positive_nonneg; lia.
  - unfold Qle in Hx; simpl in Hx. lia.
Qed.


(** [1.5 ** n] fits a double up to n = 1750 and no further. *)
Lemma power_fits (n : Z) :
  n <= 1750 -> Double.overflows ((3 # 2) ^ n) = false.
Proof.
  intros Hn. unfold Double.overflows.
  destruct (Qle_bool Double.overflow_threshold (Qabs ((3 # 2) ^ n))) eqn:E;
    [|reflexivity].
  apply Qle_bool_iff in E.
  rewrite Qabs_pos in E by (apply Qpower_0_le; discriminate).
  exfalso. apply (Qlt_not_le ((3 # 2) ^ 1750) Double.overflow_threshold).
  - vm_compute. reflexivity.
  - eapply Qle_trans; [exact E|].
    apply Qpower_le_compat_l; [exact Hn|]. unfold Qle; simpl; lia.
Qed.

Lemma power_overflows (n : Z) :
  1751 <= n -> Double.overflows ((3 # 2) ^ n) = true.
Proof.
  intros Hn. unfold Double.overflows. apply Qle_bool_iff.
  rewrite Qabs_pos by (apply Qpower_0_le; discriminate).
  apply Qle_trans with ((3 # 2) ^ 1751)%Q.
  - vm_compute. discriminate.
  - apply Qpower_le_compat_l; [exact Hn|]. unfold Qle; simpl; lia.
Qed.

(* ================================================================== *)
(** * The retry iterator *)

Lemma positive_from (a k : nat) :
  (1 <= a)%nat ->
  Forall (fun n => (0 <? n) = true) (map Z.of_nat (seq a k)).
Proof.
  revert a. induction k as [|k IH]; intros a Ha; simpl; constructor.
  - apply Z.ltb_lt. lia.
  - apply IH. lia.
Qed.

Lemma filter_all {A} (f : A -> bool) (l : list A) :
  Forall (fun x => f x = true) l -> filter f l = l.
Proof.
  induction 1 as [|x l Hx _ IH]; simpl; [reflexivity|].
  now rewrite Hx, IH.
Qed.

Section Iterator.
Context {R : Type}.

Lemma slots_pass (self : ThrottledRetries) (l : list Z) :
  slots (flat_map (round_events self) l) = l.
Proof.
  induction l as [|n l IH]; simpl; [reflexivity|].
  now rewrite slots_app, slots_round, IH.
Qed.

(** From index 1751 on line 16 raises OverflowError before it sleeps. *)
Lemma pause_overflow (self : ThrottledRetries) (n : Z) (w : World R) :
  1751 <= n -> pause self n w = (Raise OverflowError, w).
Proof.
  intros Hn. unfold pause, bind, lift, float_pow.
  now rewrite (power_overflows n Hn).
Qed.

(** Up to index 1750, for an interval that is not negative and fits a
    double, line 16 sleeps [delay], between 0 and 300 seconds. *)
Lemma pause_sleeps (self : ThrottledRetries) (n : Z) (w : World R) :
  n <= 1750 ->
  (0 <= interval self)%Q ->
  Double.overflows (interval self) = false ->
  pause self n w = (Return tt, log [EvSleep (delay self n)] w) /\
  (0 <= delay self n <= 300)%Q.
Proof.
  intros Hn HI Hfit. unfold pause, bind, lift, float_pow, float_of, delay.
  rewrite (power_fits n Hn), Hfit. cbv beta iota.
  assert (Hprod : (0 <= Double.nearest (interval self)
                        * Double.nearest ((3 # 2) ^ n))%Q).
  { apply Qmult_le_0_compat; apply nearest_nonneg; [exact HI|].
    apply Qpower_0_le. discriminate. }
  unfold float_mul.
  destruct (Double.overflows (Double.nearest (interval self)
                              * Double.nearest ((3 # 2) ^ n))).
  - apply Qle_bool_iff in Hprod. rewrite Hprod. simpl.
    split; [reflexivity|]. split; discriminate.
  - cbn [min_300 time_sleep].
    assert (H0 : (0 <= Qmin (Double.nearest
                               (Double.nearest (interval self)
                                * Double.nearest ((3 # 2) ^ n))) 300)%Q).
    { apply Q.min_glb; [now apply nearest_nonneg|discriminate]. }
    pose proof H0 as Hb. apply Qle_bool_iff in Hb. rewrite Hb.
    split; [reflexivity|]. split; [exact H0|apply Q.le_min_r].
Qed.

(** A complete pass in doubles over indices that stay below 1751. *)
Lemma pass_float_eq (self : ThrottledRetries) (k a : nat) (w : World R) :
  (a + k <= 1751)%nat ->
  (0 <= interval self)%Q ->
  Double.overflows (interval self) = false ->
  pass_float self (map Z.of_nat (seq a k)) w
  = (Return tt,
     log (flat_map (round_float self) (map Z.of_nat (seq a k))) w).
Proof.
  intros Hk HI Hfit. revert a w Hk.
  induction k as [|k IH]; intros a w Hk.
  - simpl. unfold ret. now rewrite log_nil.
  - change (seq a (S k)) with (a :: seq (S a) k). rewrite map_cons.
    cbn [pass_float flat_map]. unfold round_float at 1.
    destruct (0 <? Z.of_nat a) eqn:E.
    + destruct (pause_sleeps self (Z.of_nat a) w ltac:(lia) HI Hfit)
        as [Hp _].
      unfold bind at 1. rewrite Hp. unfold bind at 1. unfold emit at 1.
      rewrite IH by lia. now rewrite !log_app.
    + unfold bind at 1. unfold ret at 1. unfold bind at 1. unfold emit at 1.
      rewrite IH by lia. now rewrite !log_app.
Qed.

(** A pass over two lists of indices in a row. *)
Lemma pass_float_app (self : ThrottledRetries) (l1 l2 : list Z)
      (w : World R) :
  pass_float self (l1 ++ l2) w =
  match pass_float self l1 w with
  | (Return _, w') => pass_float self l2 w'
  | (Raise e, w') => (Raise e, w')
  end.
Proof.
  revert w. induction l1 as [|n l1 IH]; intros w.
  - cbn [app pass_float]. reflexivity.
  - cbn [app pass_float]. unfold bind, emit.
    destruct ((if 0 <? n then pause self n else ret tt) w) as [[u|e] w1];
      [|reflexivity].
    apply IH.
Qed.

Lemma slots_pass_float (self : ThrottledRetries) (l : list Z) :
  slots (flat_map (round_float self) l) = l.
Proof.
  induction l as [|n l IH]; simpl; [reflexivity|].
  rewrite slots_app, IH. unfold round_float.
  destruct (0 <? n); reflexivity.
Qed.

End Iterator.


(** For the driver's policy, 25 attempts at 15 seconds, line 16 in doubles
    is the exact computation: each of its 24 delays is a double. *)
Lemma driver_policy_exact {R} (n : Z) (w : World R) :
  1 <= n <= 24 ->
  pause (mkThrottledRetries 25 15) n w
  = sleep (backoff (mkThrottledRetries 25 15) n) w.
Proof.
  intros Hn.
  destruct (pause_sleeps (mkThrottledRetries 25 15) n w) as [-> _];
    [lia|discriminate|reflexivity|].
  unfold sleep, emit. do 3 f_equal.
  assert (H : In n (tl (range 25))).
  { replace n with (Z.of_nat (Z.to_nat n)) by lia.
    change (tl (range 25)) with (map Z.of_nat (seq 1 24)).
    apply in_map, in_seq. lia. }
  assert (A : map (delay (mkThrottledRetries 25 15)) (tl (range 25))
              = map (backoff (mkThrottledRetries 25 15)) (tl (range 25))).
  { vm_compute. reflexivity. }
  rewrite map_ext_in_iff in A. f_equal. now apply A.
Qed.

(** The claim at a negative interval and at a long policy.  With 2
    attempts and interval -1 the pass hands out index 0 and then raises
    ValueError: the sleep before index 1 would last -1.5 seconds.  With
    1752 attempts and interval 15 it hands out 0, ..., 1750 and then raises
    OverflowError: 1.5 ** 1751 is no double. *)
Lemma negative_interval_counterexample :
  exhaust_float (mkThrottledRetries 2 (-1 # 1)) start
  = (Raise (ValueError "sleep length must be non-negative"),
     mkWorld tt [EvYield 0]) /\
  exists did,
    exhaust_float (mkThrottledRetries 1752 15) start
    = (Raise OverflowError, mkWorld tt did) /\
    slots did = map Z.of_nat (seq 0 1751).
Proof.
  split; [vm_compute; reflexivity|].
  exists (flat_map (round_float (mkThrottledRetries 1752 15))
                   (map Z.of_nat (seq 0 1751))).
  split; [|apply slots_pass_float].
  unfold exhaust_float, __iter__, range. cbn [gi_range attempts].
  change (Z.to_nat 1752) with (S 1751).
  rewrite seq_S, map_app, pass_float_app.
  rewrite (pass_float_eq (mkThrottledRetries 1752 15) 1751 0 start);
    [|lia|discriminate|vm_compute; reflexivity].
  cbn [map pass_float Nat.add]. unfold bind at 1.
  change (0 <? Z.of_nat 1751) with true. cbv iota.
  rewrite pause_overflow by lia. reflexivity.
Qed.



(* ================================================================== *)
(** * The polling loops *)

Section Polling.
Context {R : Type} (client : Client R) (self : GrandChallengeAlgorithm).

(** The poll of the import loop, by what the service answers. *)

Lemma import_body_raise (s : session) n (w : World R) e r' :
  session_detail client (session_pk s) (remote w) = (Raise e, r') ->
  import_body client self s n w =
  let w' := mkWorld r' (trace w ++ [EvRequest (ReqSessionDetail (session_pk s))]) in
  if is_IOError e then (Return Continue, w') else (Raise e, w').
Proof.
  intros H. unfold import_body, try_except_else.
  rewrite (call_eq _ _ _ _ _ H). simpl. destruct (is_IOError e); reflexivity.
Qed.

Lemma import_body_rejected (s : session) n (w : World R) d r' :
  session_detail client (session_pk s) (remote w) = (Return d, r') ->
  failed_or_cancelled (session_status d) = true ->
  import_body client self s n w =
  (Raise (RuntimeError (not_started_message (algorithm self))),
   mkWorld r' (trace w ++ [EvRequest (ReqSessionDetail (session_pk s))])).
Proof.
  intros H Hs. unfold import_body, try_except_else.
  rewrite (call_eq _ _ _ _ _ H). simpl. rewrite Hs. reflexivity.
Qed.

Lemma import_body_pending (s : session) n (w : World R) d r' :
  session_detail client (session_pk s) (remote w) = (Return d, r') ->
  pending_status (session_status d) = true ->
  import_body client self s n w =
  (Return Continue,
   mkWorld r' (trace w ++ [EvRequest (ReqSessionDetail (session_pk s))])).
Proof.
  intros H Hs. unfold import_body, try_except_else.
  rewrite (call_eq _ _ _ _ _ H). simpl.
  unfold pending_status in Hs. apply andb_true_iff in Hs as [H1 H2].
  apply negb_true_iff in H1, H2. rewrite H1, H2. reflexivity.
Qed.

Lemma import_body_no_image (s : session) n (w : World R) d r' :
  session_detail client (session_pk s) (remote w) = (Return d, r') ->
  session_status d = "Succeeded" ->
  image_set d = [] ->
  import_body client self s n w =
  (Raise (RuntimeError not_imported_message),
   mkWorld r' (trace w ++ [EvRequest (ReqSessionDetail (session_pk s))])).
Proof.
  intros H Hs Hi. unfold import_body, try_except_else.
  rewrite (call_eq _ _ _ _ _ H). simpl. rewrite Hs, Hi. reflexivity.
Qed.

Lemma import_body_imported (s : session) n (w : World R) d r' url more
      img r'' :
  session_detail client (session_pk s) (remote w) = (Return d, r') ->
  session_status d = "Succeeded" ->
  image_set d = url :: more ->
  get_image client url r' = (Return img, r'') ->
  import_body client self s n w =
  (Return (Break (image_pk img)),
   mkWorld r'' (trace w ++ [EvRequest (ReqSessionDetail (session_pk s));
                            fetch url])).
Proof.
  intros H Hs Hi Hg. unfold import_body, try_except_else.
  rewrite (call_eq _ _ _ _ _ H). simpl. rewrite Hs, Hi. simpl.
  unfold bind at 1. unfold ret at 1.
  unfold bind. rewrite (call_mk _ _ _ _ _ _ Hg).
  unfold ret, fetch. now rewrite <- app_assoc.
Qed.

(** The poll of the job loop when the answer reaches no terminal
    status. *)
Lemma job_body_pending (image_uuid output_file : string) n (w : World R) :
  job_pending
    (fst (jobs_page client (algorithm_uuid self) image_uuid 1 (remote w)))
  = true ->
  job_body client self image_uuid output_file n w =
  (Return Continue,
   mkWorld
     (snd (jobs_page client (algorithm_uuid self) image_uuid 1 (remote w)))
     (trace w ++ [EvRequest (ReqJobsPage (algorithm_uuid self) image_uuid 1)])).
Proof.
  destruct (jobs_page client _ _ _ _) as [o r'] eqn:H. simpl. intros Hp.
  unfold job_body, try_except_else, bind.
  rewrite (call_eq _ _ _ _ _ H).
  destruct o as [[|j page]|e]; simpl in *.
  - reflexivity.
  - unfold pending_status in Hp. apply andb_true_iff in Hp as [H1 H2].
    apply negb_true_iff in H1, H2. rewrite H1, H2. reflexivity.
  - rewrite Hp. reflexivity.
Qed.

(** A polling loop whose every round makes the one call [rq] and goes on
    runs through all pending indices and then takes its [else] suite. *)
Lemma for_loop_polling {A} (p : ThrottledRetries) (body : Z -> M R (flow A))
      (rq : request) (e : exn) :
  (forall n w, exists r',
      body n w = (Return Continue, mkWorld r' (trace w ++ [EvRequest rq]))) ->
  forall pending w, exists r',
    for_loop p pending body (raise e) w =
    (Raise e,
     mkWorld r' (trace w ++
                 flat_map (fun n => round_events p n ++ [EvRequest rq])
                          pending)).
Proof.
  intros Hbody pending. induction pending as [|n rest IH]; intros w.
  - exists (remote w). destruct w; simpl. unfold raise.
    now rewrite app_nil_r.
  - rewrite for_loop_cons.
    destruct (Hbody n (log (round_events p n) w)) as [r1 ->].
    destruct (IH (mkWorld r1
                    (trace (log (round_events p n) w) ++ [EvRequest rq])))
      as [r2 ->].
    exists r2. simpl. now rewrite <- !app_assoc.
Qed.

Lemma slots_polling (p : ThrottledRetries) (rq : request) pending :
  slots (flat_map (fun n => round_events p n ++ [EvRequest rq]) pending)
  = pending.
Proof.
  induction pending as [|n rest IH]; simpl; [reflexivity|].
  rewrite !slots_app, slots_round, IH. reflexivity.
Qed.

Lemma requests_round (p : ThrottledRetries) n :
  requests (round_events p n) = [].
Proof. unfold round_events; destruct (0 <? n); reflexivity. Qed.

Lemma requests_app (a b : list event) :
  requests (a ++ b) = requests a ++ requests b.
Proof.
  induction a as [|ev a IH]; simpl; [reflexivity|].
  destruct ev; simpl; now rewrite IH.
Qed.

Lemma requests_polling (p : ThrottledRetries) (rq : request) pending :
  requests (flat_map (fun n => round_events p n ++ [EvRequest rq]) pending)
  = map (fun _ => rq) pending.
Proof.
  induction pending as [|n rest IH]; simpl; [reflexivity|].
  rewrite !requests_app, requests_round, IH. reflexivity.
Qed.

(** The import loop when the polls it makes, one a pending index, all
    reach no terminal status. *)
Lemma import_loop_stalled (s : session) (pending : list Z) :
  forall w,
    import_stalls client (session_pk s) (length pending) (remote w) = true ->
    exists r',
      for_loop (retries self) pending (import_body client self s)
               (raise TimeoutError) w =
      (Raise TimeoutError,
       mkWorld r' (trace w ++
                   flat_map (fun n => round_events (retries self) n ++
                                      [EvRequest (ReqSessionDetail (session_pk s))])
                            pending)).
Proof.
  induction pending as [|n rest IH]; intros w Hst.
  - exists (remote w). destruct w; simpl. unfold raise.
    now rewrite app_nil_r.
  - cbn [length import_stalls] in Hst.
    destruct (session_detail client (session_pk s) (remote w)) as [o r1]
      eqn:H.
    apply andb_true_iff in Hst as [Hp Hrest].
    rewrite for_loop_cons.
    assert (E : import_body client self s n
                  (log (round_events (retries self) n) w)
                = (Return Continue,
                   mkWorld r1 (trace (log (round_events (retries self) n) w)
                               ++ [EvRequest (ReqSessionDetail (session_pk s))]))).
    { destruct o as [d|e]; simpl in Hp.
      - now apply (import_body_pending s n
                     (log (round_events (retries self) n) w) d r1).
      - rewrite (import_body_raise s n
                   (log (round_events (retries self) n) w) e r1 H).
        cbv zeta. now rewrite Hp. }
    rewrite E.
    destruct (IH (mkWorld r1
                    (trace (log (round_events (retries self) n) w)
                     ++ [EvRequest (ReqSessionDetail (session_pk s))]))
                 Hrest) as [r2 ->].
    exists r2. simpl. now rewrite <- !app_assoc.
Qed.

(** The job loop when the polls it makes all reach no terminal status. *)
Lemma job_loop_stalled (image_uuid output_file : string)
      (pending : list Z) :
  forall w,
    job_stalls client (algorithm_uuid self) image_uuid (length pending)
               (remote w) = true ->
    exists r',
      for_loop (retries self) pending
               (job_body client self image_uuid output_file)
               (raise TimeoutError) w =
      (Raise TimeoutError,
       mkWorld r' (trace w ++
                   flat_map (fun n => round_events (retries self) n ++
                                      [EvRequest (ReqJobsPage (algorithm_uuid self)
                                                              image_uuid 1)])
                            pending)).
Proof.
  induction pending as [|n rest IH]; intros w Hst.
  - exists (remote w). destruct w; simpl. unfold raise.
    now rewrite app_nil_r.
  - cbn [length job_stalls] in Hst.
    destruct (jobs_page client (algorithm_uuid self) image_uuid 1 (remote w))
      as [o r1] eqn:H.
    apply andb_true_iff in Hst as [Hp Hrest].
    rewrite for_loop_cons.
    rewrite (job_body_pending image_uuid output_file n
               (log (round_events (retries self) n) w))
      by (simpl remote; now rewrite H).
    simpl remote. rewrite H. cbn [snd].
    destruct (IH (mkWorld r1
                    (trace (log (round_events (retries self) n) w)
                     ++ [EvRequest (ReqJobsPage (algorithm_uuid self)
                                                image_uuid 1)]))
                 Hrest) as [r2 ->].
    exists r2. simpl. now rewrite <- !app_assoc.
Qed.

Lemma length_range (n : Z) : length (range n) = Z.to_nat n.
Proof. unfold range. now rewrite length_map, length_seq. Qed.

End Polling.

Lemma string_app_assoc (a b c : string) :
  ((a ++ b) ++ c = a ++ (b ++ c))%string.
Proof. induction a as [|ch a IH]; simpl; [reflexivity|]. now rewrite IH. Qed.

(** The two RuntimeError messages with the algorithm's name, character by
    character: [Algorithm], a space, a double quote (character 34), the
    name, a double quote, and the rest. *)
Lemma not_started_message_eq (name : string) :
  not_started_message name
  = ("Algorithm "
       ++ String "034" (name ++ String "034" " could not be started"))%string.
Proof.
  unfold not_started_message, quoted, dquote. simpl.
  now rewrite string_app_assoc.
Qed.

Lemma failed_message_eq (name : string) :
  failed_message name
  = ("Algorithm " ++ String "034" (name ++ String "034" " failed"))%string.
Proof.
  unfold failed_message, quoted, dquote. simpl.
  now rewrite string_app_assoc.
Qed.

Lemma range_three (n : Z) :
  3 <= n -> exists rest, range n = 0 :: 1 :: 2 :: rest.
Proof.
  intros H. unfold range.
  destruct (Z.to_nat n) as [|[|[|k]]] eqn:E; try lia.
  simpl. eexists. reflexivity.
Qed.

Lemma range_one (n : Z) : 1 <= n -> exists rest, range n = 0 :: rest.
Proof.
  intros H. unfold range.
  destruct (Z.to_nat n) as [|k] eqn:E; try lia.
  simpl. eexists. reflexivity.
Qed.

(** C4. Import polling, from any state of the world.  (1) If the policy
    has at least three attempts and the session polls are answered, in this
    order, by an I/O error, by status "Queued" and by status "Succeeded"
    with a first image reference that the service then resolves, the loop
    hands out exactly the slots 0, 1, 2, makes three polls and one image
    look-up, and ends with the identifier of that image.  (2) If the first
    poll reports "Cancelled" or "Failed", a RuntimeError whose message names
    the algorithm is raised after that one poll: one slot, no further poll,
    no sleep.  The message is [Algorithm "<name>" could not be started],
    the name between double quotes (character 34). *)
Theorem import_polling_scenarios {R} (client : Client R)
    (self : GrandChallengeAlgorithm) (s : session) (w : World R) :
  let pk := session_pk s in
  let poll := EvRequest (ReqSessionDetail pk) in
  let delay := fun n : Z => Qmin (interval (retries self) * (3 # 2) ^ n) 300 in
  (forall e r1 d1 r2 d2 r3 url more img r4,
      3 <= attempts (retries self) ->
      session_detail client pk (remote w) = (Raise e, r1) ->
      is_IOError e = true ->
      session_detail client pk r1 = (Return d1, r2) ->
      session_status d1 = "Queued" ->
      session_detail client pk r2 = (Return d2, r3) ->
      session_status d2 = "Succeeded" ->
      image_set d2 = url :: more ->
      get_image client url r3 = (Return img, r4) ->
      let did := [EvYield 0; poll;
                  EvSleep (delay 1); EvYield 1; poll;
                  EvSleep (delay 2); EvYield 2; poll; fetch url] in
      wait_for_import client self s w =
      (Return (image_pk img), mkWorld r4 (trace w ++ did)) /\
      slots did = [0; 1; 2] /\
      requests did = [ReqSessionDetail pk; ReqSessionDetail pk;
                      ReqSessionDetail pk; ReqUrl url]) /\
  (forall d r1,
      1 <= attempts (retries self) ->
      session_detail client pk (remote w) = (Return d, r1) ->
      session_status d = "Cancelled" \/ session_status d = "Failed" ->
      wait_for_import client self s w =
      (Raise (RuntimeError
                ("Algorithm "
                   ++ String "034"
                        (algorithm self
                           ++ String "034" " could not be started"))),
       mkWorld r1 (trace w ++ [EvYield 0; poll]))).
Proof.
  intros pk poll delay. split.
  - intros e r1 d1 r2 d2 r3 url more img r4 HN H0 He H1 Hq H2 Hs Hi Hg did.
    split; [|split; reflexivity].
    destruct (range_three _ HN) as [rest Hr].
    unfold wait_for_import, for_else, __iter__; simpl. rewrite Hr.
    destruct w as [r0 t].
    rewrite for_loop_cons.
    rewrite (import_body_raise client self s 0
               (log (round_events (retries self) 0) (mkWorld r0 t)) e r1 H0).
    cbv zeta. rewrite He. cbv iota beta.
    rewrite for_loop_cons.
    rewrite (import_body_pending client self s 1
               (log (round_events (retries self) 1) (mkWorld r1 _)) d1 r2 H1)
      by now rewrite Hq.
    cbv iota beta.
    rewrite for_loop_cons.
    rewrite (import_body_imported client self s 2
               (log (round_events (retries self) 2) (mkWorld r2 _)) d2 r3
               url more img r4 H2 Hs Hi Hg).
    simpl. unfold did, backoff, delay, poll, pk.
    now rewrite <- !app_assoc.
  - intros d r1 HN H0 Hst.
    destruct (range_one _ HN) as [rest Hr].
    unfold wait_for_import, for_else, __iter__; simpl. rewrite Hr.
    destruct w as [r0 t].
    rewrite for_loop_cons.
    rewrite (import_body_rejected client self s 0
               (log (round_events (retries self) 0) (mkWorld r0 t)) d r1 H0)
      by (destruct Hst as [-> | ->]; reflexivity).
    rewrite not_started_message_eq. simpl. unfold poll, pk.
    now rewrite <- !app_assoc.
Qed.

(** The polls "I/O error, Queued, Succeeded" end with the image
    identifier after three slots; a first poll "Cancelled" ends with the
    RuntimeError. *)
Lemma import_polling_scenarios_witness :
  (fst (wait_for_import scripted sample_driver sample_session retried_world)
   = Return "image-1" /\
   slots (trace (snd (wait_for_import scripted sample_driver sample_session
                        retried_world)))
   = [0; 1; 2]) /\
  fst (wait_for_import scripted sample_driver sample_session cancelled_world)
  = Raise (RuntimeError
             ("Algorithm "
                ++ String "034" ("lungs"
                                   ++ String "034" " could not be started"))).
Proof.
  split.
  - destruct (proj1 (import_polling_scenarios scripted sample_driver
                       sample_session retried_world)
                IOError
                (sample_script
                   [Return (mkSessionDetails "Queued" []);
                    Return (mkSessionDetails "Succeeded" ["image-url"])] [])
                (mkSessionDetails "Queued" [])
                (sample_script
                   [Return (mkSessionDetails "Succeeded" ["image-url"])] [])
                (mkSessionDetails "Succeeded" ["image-url"])
                (sample_script [] [])
                "image-url" [] sample_image (sample_script [] []))
      as (E & _ & _).
    + simpl; lia.
    + reflexivity.
    + reflexivity.
    + reflexivity.
    + reflexivity.
    + reflexivity.
    + reflexivity.
    + reflexivity.
    + reflexivity.
    + rewrite E. split; reflexivity.
  - rewrite (proj2 (import_polling_scenarios scripted sample_driver
                      sample_session cancelled_world)
               (mkSessionDetails "Cancelled" []) (sample_script [] [])).
    + reflexivity.
    + simpl; lia.
    + reflexivity.
    + left; reflexivity.
Defined.

(** One round of the import loop in which the poll reports "Succeeded"
    without any image reference. *)
Lemma import_round_no_image {R} (client : Client R)
    (self : GrandChallengeAlgorithm) (s : session) (n : Z) (rest : list Z)
    (w : World R) d r1 :
  session_detail client (session_pk s) (remote w) = (Return d, r1) ->
  session_status d = "Succeeded" ->
  image_set d = [] ->
  for_loop (retries self) (n :: rest) (import_body client self s)
           (raise TimeoutError) w =
  (Raise (RuntimeError not_imported_message),
   mkWorld r1 (trace w ++ round_events (retries self) n ++
               [EvRequest (ReqSessionDetail (session_pk s))])).
Proof.
  intros H Hs Hi. rewrite for_loop_cons.
  rewrite (import_body_no_image client self s n
             (log (round_events (retries self) n) w) d r1 H Hs Hi).
  destruct w as [r0 t]. simpl. now rewrite <- app_assoc.
Qed.

(** C6. Whenever a poll of the import loop (round n, with any rounds still
    pending) reports "Succeeded" with an empty image list, the loop ends in
    that round with the RuntimeError "Uploaded image could not be
    imported, not a valid image?": after the poll nothing more is done, no
    pending slot is handed out, and the error is neither the TimeoutError nor
    the RuntimeError raised for "Failed"/"Cancelled".  In particular this is
    so for the first poll of the driver's import phase. *)
Theorem import_without_image_fails_at_once {R} (client : Client R)
    (self : GrandChallengeAlgorithm) (s : session) (w : World R) d r1 :
  session_detail client (session_pk s) (remote w) = (Return d, r1) ->
  session_status d = "Succeeded" ->
  image_set d = [] ->
  let error :=
    RuntimeError "Uploaded image could not be imported, not a valid image?" in
  let poll := EvRequest (ReqSessionDetail (session_pk s)) in
  (forall n rest,
      let round :=
        (if 0 <? n
         then [EvSleep (Qmin (interval (retries self) * (3 # 2) ^ n) 300);
               EvYield n]
         else [EvYield n]) ++ [poll] in
      for_loop (retries self) (n :: rest) (import_body client self s)
               (raise TimeoutError) w
      = (Raise error, mkWorld r1 (trace w ++ round)) /\
      slots round = [n]) /\
  (1 <= attempts (retries self) ->
   wait_for_import client self s w =
   (Raise error, mkWorld r1 (trace w ++ [EvYield 0; poll]))) /\
  error <> TimeoutError /\
  is_TimeoutError error = false /\
  (forall name, error <> RuntimeError (not_started_message name)).
Proof.
  intros H Hs Hi error poll. split; [|split; [|split; [|split]]].
  - intros n rest round. split.
    + rewrite (import_round_no_image client self s n rest w d r1 H Hs Hi).
      unfold round, round_events, backoff, poll.
      destruct (0 <? n); reflexivity.
    + unfold round. destruct (0 <? n); reflexivity.
  - intros HN. destruct (range_one _ HN) as [rest Hr].
    unfold wait_for_import, for_else, __iter__; simpl. rewrite Hr.
    now rewrite (import_round_no_image client self s 0 rest w d r1 H Hs Hi).
  - discriminate.
  - reflexivity.
  - intros name E. unfold error, not_started_message in E. simpl in E.
    discriminate E.
Qed.

(** The first poll reports "Succeeded" without an image: slot 0 is used,
    the other 24 are not, and the RuntimeError is raised. *)
Lemma import_without_image_fails_at_once_witness :
  fst (wait_for_import scripted sample_driver sample_session no_image_world)
  = Raise (RuntimeError
             "Uploaded image could not be imported, not a valid image?") /\
  slots (trace (snd (wait_for_import scripted sample_driver sample_session
                       no_image_world)))
  = [0].
Proof.
  pose proof (import_without_image_fails_at_once scripted sample_driver
                sample_session no_image_world
                (mkSessionDetails "Succeeded" []) (sample_script [] [])
                eq_refl eq_refl eq_refl) as (_ & Hfirst & _).
  rewrite Hfirst by (simpl; lia). split; reflexivity.
Defined.

(** C8. In both polling phases, if each of the N polls the loop makes
    reaches no terminal status (the call fails with an I/O error, or
    reports a status other than "Succeeded", "Failed" and "Cancelled"; for
    the job poll also: no job is listed), the loop hands out all N indices
    of the policy, polls N times, and then raises TimeoutError, whatever
    the service would answer to a further poll.  TimeoutError is a different
    exception from the RuntimeError raised for "Failed"/"Cancelled": neither
    is an instance of the other's class. *)
Theorem polling_exhaustion_times_out {R} (client : Client R)
    (self : GrandChallengeAlgorithm) :
  let N := attempts (retries self) in
  (forall s w,
      import_stalls client (session_pk s) (Z.to_nat N) (remote w) = true ->
      exists r' evs,
        wait_for_import client self s w =
        (Raise TimeoutError, mkWorld r' (trace w ++ evs)) /\
        slots evs = range N /\
        requests evs = map (fun _ => ReqSessionDetail (session_pk s))
                           (range N)) /\
  (forall image_uuid output_file w,
      job_stalls client (algorithm_uuid self) image_uuid (Z.to_nat N)
                 (remote w) = true ->
      exists r' evs,
        wait_for_job client self image_uuid output_file w =
        (Raise TimeoutError, mkWorld r' (trace w ++ evs)) /\
        slots evs = range N /\
        requests evs =
        map (fun _ => ReqJobsPage (algorithm_uuid self) image_uuid 1)
            (range N)) /\
  (forall msg,
      TimeoutError <> RuntimeError msg /\
      is_RuntimeError TimeoutError = false /\
      is_TimeoutError (RuntimeError msg) = false).
Proof.
  intros N. split; [|split].
  - intros s w Hp. unfold wait_for_import, for_else, __iter__.
    cbn [gi_self gi_range].
    destruct (import_loop_stalled client self s (range N) w) as [r' E].
    + now rewrite length_range.
    + exists r'. eexists. split; [exact E|]. split.
      * apply slots_polling.
      * apply requests_polling.
  - intros image_uuid output_file w Hp.
    unfold wait_for_job, for_else, __iter__. cbn [gi_self gi_range].
    destruct (job_loop_stalled client self image_uuid output_file
                (range N) w) as [r' E].
    + now rewrite length_range.
    + exists r'. eexists. split; [exact E|]. split.
      * apply slots_polling.
      * apply requests_polling.
  - intros msg. repeat split. discriminate.
Qed.

(** A service whose session is "Queued" for 25 polls and would report
    "Succeeded" at the 26th, and which lists a finished job only at the
    26th poll: both loops make 25 polls and raise TimeoutError. *)
Lemma polling_exhaustion_times_out_witness :
  (exists w', wait_for_import scripted sample_driver sample_session late_world
              = (Raise TimeoutError, w') /\
              length (requests (trace w')) = 25%nat) /\
  (exists w', wait_for_job scripted sample_driver "image-1" "out/mask.mha"
                late_world
              = (Raise TimeoutError, w') /\
              length (requests (trace w')) = 25%nat).
Proof.
  pose proof (polling_exhaustion_times_out scripted sample_driver)
    as (Hi & Hj & _).
  split.
  - destruct (Hi sample_session late_world) as (r' & evs & E & _ & Hrq).
    + vm_compute. reflexivity.
    + eexists. split; [exact E|]. simpl. now rewrite Hrq.
  - destruct (Hj "image-1" "out/mask.mha" late_world)
      as (r' & evs & E & _ & Hrq).
    + vm_compute. reflexivity.
    + eexists. split; [exact E|]. simpl. now rewrite Hrq.
Defined.

(* ================================================================== *)
(** * One policy object, iterated twice *)

(** A complete pass in doubles over a policy whose line 16 raises
    nothing. *)
Lemma exhaust_float_eq {R} (self : ThrottledRetries) (w : World R) :
  attempts self <= 1751 ->
  (0 <= interval self)%Q ->
  Double.overflows (interval self) = false ->
  exhaust_float self w
  = (Return tt, log (flat_map (round_float self) (range (attempts self))) w).
Proof.
  intros HN HI Hfit. unfold exhaust_float, __iter__, range.
  cbn [gi_range]. apply pass_float_eq; [lia|exact HI|exact Hfit].
Qed.

Lemma second_pass_float_full {R} (self : ThrottledRetries) (w : World R) :
  attempts self <= 1751 ->
  (0 <= interval self)%Q ->
  Double.overflows (interval self) = false ->
  second_pass_slots_float self w = range (attempts self).
Proof.
  intros HN HI Hfit. unfold second_pass_slots_float.
  rewrite !exhaust_float_eq by assumption. simpl.
  rewrite skipn_app, skipn_all, Nat.sub_diag. simpl.
  apply slots_pass_float.
Qed.

(** The import loop when its first poll reports "Succeeded" with an image
    reference that resolves. *)
Lemma wait_for_import_first {R} (client : Client R)
    (self : GrandChallengeAlgorithm) (s : session) (w : World R)
    d r1 url more img r2 :
  1 <= attempts (retries self) ->
  session_detail client (session_pk s) (remote w) = (Return d, r1) ->
  session_status d = "Succeeded" ->
  image_set d = url :: more ->
  get_image client url r1 = (Return img, r2) ->
  wait_for_import client self s w =
  (Return (image_pk img),
   mkWorld r2 (trace w ++ [EvYield 0;
                           EvRequest (ReqSessionDetail (session_pk s));
                           fetch url])).
Proof.
  intros HN H Hs Hi Hg. destruct (range_one _ HN) as [rest Hr].
  unfold wait_for_import, for_else, __iter__; simpl. rewrite Hr.
  rewrite for_loop_cons.
  rewrite (import_body_imported client self s 0
             (log (round_events (retries self) 0) w) d r1 url more img r2
             H Hs Hi Hg).
  destruct w as [r0 t]. simpl. now rewrite <- app_assoc.
Qed.

(** [run], by the outcome of its phases. *)
Lemma run_eq {R} (client : Client R) (self : GrandChallengeAlgorithm)
    (input_files : list string) (output_file : string) (r0 : R)
    (t : list event) :
  run client self input_files output_file (mkWorld r0 t) =
  let up := EvRequest (ReqUploadCases input_files (algorithm self)) in
  let p1 := EvPrint ("Uploading to grand-challenge.org to run "
                     ++ quoted (algorithm self)) in
  let p2 := EvPrint ("Waiting for image import to finish for algorithm "
                     ++ quoted (algorithm self)) in
  let p3 := EvPrint ("Waiting for results of algorithm "
                     ++ quoted (algorithm self)) in
  match upload_cases client input_files (algorithm self) r0 with
  | (Return s, r1) =>
      match wait_for_import client self s
              (mkWorld r1 (t ++ [p1; up; p2; EvSleep 30])) with
      | (Return image_uuid, w2) =>
          wait_for_job client self image_uuid output_file
            (log [p3; EvSleep (inject_Z (headstart self))] w2)
      | (Raise e, w2) => (Raise e, w2)
      end
  | (Raise e, r1) => (Raise e, mkWorld r1 (t ++ [p1; up]))
  end.
Proof.
  unfold run, print, sleep, emit, bind, call, log. simpl.
  destruct (upload_cases client input_files (algorithm self) r0)
    as [[s|e] r1]; simpl.
  - rewrite <- !app_assoc. simpl.
    destruct (wait_for_import client self s _) as [[u|e] w2]; simpl.
    + rewrite <- !app_assoc. reflexivity.
    + reflexivity.
  - rewrite <- !app_assoc. reflexivity.
Qed.

(** A run whose import succeeds at the first poll and whose job never
    reaches a terminal status. *)
Lemma run_import_then_timeout {R} (client : Client R)
    (self : GrandChallengeAlgorithm) (input_files : list string)
    (output_file : string) (w : World R) s r1 d r2 url more img r3 :
  1 <= attempts (retries self) ->
  upload_cases client input_files (algorithm self) (remote w)
  = (Return s, r1) ->
  session_detail client (session_pk s) r1 = (Return d, r2) ->
  session_status d = "Succeeded" ->
  image_set d = url :: more ->
  get_image client url r2 = (Return img, r3) ->
  job_stalls client (algorithm_uuid self) (image_pk img)
             (Z.to_nat (attempts (retries self))) r3 = true ->
  exists r' evs,
    run client self input_files output_file w =
    (Raise TimeoutError, mkWorld r' (trace w ++ evs)) /\
    slots evs = 0 :: range (attempts (retries self)).
Proof.
  intros HN Hu H Hs Hi Hg Hj. destruct w as [r0 t].
  rewrite run_eq. cbv zeta. simpl in Hu. rewrite Hu.
  rewrite (wait_for_import_first client self s (mkWorld r1 _) d r2 url more
             img r3 HN H Hs Hi Hg).
  unfold wait_for_job, for_else, __iter__. cbn [gi_self gi_range].
  match goal with
  | |- context [for_loop _ _ _ _ ?w1] =>
      destruct (job_loop_stalled client self (image_pk img) output_file
                  (range (attempts (retries self))) w1) as [r' E];
        [rewrite length_range; exact Hj|rewrite E]
  end.
  exists r'. eexists. split.
  - unfold log. simpl. rewrite <- !app_assoc. simpl. reflexivity.
  - simpl. rewrite slots_polling. reflexivity.
Qed.

(** [__init__], by the answer to its look-up. *)
Lemma init_eq {R} (client : Client R) (api_token name : string)
    (w : World R) :
  __init__ client api_token name w =
  let (o, r') := algorithms client name (remote w) in
  let w' := mkWorld r' (trace w ++ [EvRequest (ReqAlgorithms name)]) in
  match o with
  | Return (Some (a :: _)) =>
      match algorithm_pk a, average_duration a with
      | Some pk, Some average =>
          match headstart_of average with
          | Return h =>
              (Return (mkGrandChallengeAlgorithm name
                         (mkThrottledRetries 25 15) pk h), w')
          | Raise e => (Raise e, w')
          end
      | _, _ => (Raise KeyError, w')
      end
  | Return _ => (Raise (ValueError "Invalid algorithm name"), w')
  | Raise e => (Raise e, w')
  end.
Proof.
  unfold __init__, bind, call, try_except, item, lift.
  destruct (algorithms client name (remote w)) as [[[[|a results]|]|e] r'];
    try reflexivity.
  simpl.
  destruct (algorithm_pk a) as [pk|]; [|reflexivity]. simpl.
  destruct (average_duration a) as [average|]; [|reflexivity]. simpl.
  destruct (headstart_of average); reflexivity.
Qed.

(** The claim at the policy with three attempts and a 15 second interval:
    the second pass over the consumed policy object hands out 0, 1, 2
    again, all three indices. *)
Lemma second_pass_counterexample :
  ~ (second_pass_slots (mkThrottledRetries 3 15) (mkWorld tt [])
     <> range (attempts (mkThrottledRetries 3 15))).
Proof. intros H. apply H. reflexivity. Qed.

(** C3, amended. [__iter__] starts a new generator at every call and does
    not change the policy object, so a second complete pass over a policy
    that has already been consumed hands out all N indices 0, ..., N-1
    again; this is stated for the policies whose passes end normally: at
    most 1751 attempts and an interval that is not negative and fits a
    double.  The driver relies on it: it makes one policy at construction
    and iterates it in both polling phases.  In a run whose import succeeds
    at the first poll (slot 0 of the policy) and whose N job polls reach no
    terminal status, the job phase still hands out all N indices of the
    same policy before TimeoutError is raised. *)
Theorem same_policy_restarts {R} (client : Client R) :
  (forall (p : ThrottledRetries) (w : World R),
      attempts p <= 1751 ->
      (0 <= interval p)%Q ->
      Double.overflows (interval p) = false ->
      second_pass_slots_float p w = range (attempts p)) /\
  (forall api_token name w self w',
      __init__ client api_token name w = (Return self, w') ->
      retries self = mkThrottledRetries 25 15) /\
  (forall self input_files output_file w s r1 d r2 url more img r3,
      1 <= attempts (retries self) ->
      upload_cases client input_files (algorithm self) (remote w)
      = (Return s, r1) ->
      session_detail client (session_pk s) r1 = (Return d, r2) ->
      session_status d = "Succeeded" ->
      image_set d = url :: more ->
      get_image client url r2 = (Return img, r3) ->
      job_stalls client (algorithm_uuid self) (image_pk img)
                 (Z.to_nat (attempts (retries self))) r3 = true ->
      exists r' evs,
        run client self input_files output_file w =
        (Raise TimeoutError, mkWorld r' (trace w ++ evs)) /\
        slots evs = 0 :: range (attempts (retries self))).
Proof.
  split; [|split].
  - intros p w HN HI Hfit. now apply second_pass_float_full.
  - intros api_token name w self w'. rewrite init_eq.
    destruct (algorithms client name (remote w)) as [[[[|a results]|]|e] r'];
      try (intros E; discriminate E).
    destruct (algorithm_pk a) as [pk|]; [|intros E; discriminate E].
    destruct (average_duration a) as [average|]; [|intros E; discriminate E].
    destruct (headstart_of average); intros E; inversion E; reflexivity.
  - intros. eapply run_import_then_timeout; eassumption.
Qed.

(** The policy of 3 attempts and 15 seconds iterated twice; and the sample
    driver against a service that imports at once, lists no job for 25
    polls and a finished job at the 26th: slot 0 in the import phase, then
    0, ..., 24 in the job phase. *)
Lemma same_policy_restarts_witness :
  second_pass_slots_float (mkThrottledRetries 3 15) quiet_world
  = [0; 1; 2] /\
  exists w',
    run scripted sample_driver ["scan.mha"] "out/mask.mha" imported_world
    = (Raise TimeoutError, w') /\
    slots (trace w') = 0 :: range 25.
Proof.
  pose proof (same_policy_restarts scripted) as (Hpass & _ & Hrun).
  split.
  - apply (Hpass (mkThrottledRetries 3 15) quiet_world).
    + simpl; lia.
    + discriminate.
    + vm_compute. reflexivity.
  - destruct (Hrun sample_driver ["scan.mha"] "out/mask.mha" imported_world
                sample_session (remote imported_world)
                (mkSessionDetails "Succeeded" ["image-url"])
                (remote late_world)
                "image-url" [] sample_image (remote late_world))
      as (r' & evs & E & Hs).
    + simpl; lia.
    + reflexivity.
    + reflexivity.
    + reflexivity.
    + reflexivity.
    + reflexivity.
    + vm_compute. reflexivity.
    + eexists. split; [exact E|]. simpl. exact Hs.
Defined.

(* ================================================================== *)
(** * The download step *)

Section Download.
Context {R : Type} (client : Client R) (filename : string).

Lemma download_files_none (fs : list file_entry) (w : World R) :
  existsb is_mhd fs = false ->
  download_files client filename fs w = (Return Continue, w).
Proof.
  induction fs as [|f fs IH]; simpl; intros H; [reflexivity|].
  apply orb_false_iff in H as [Hf Hfs]. unfold is_mhd in Hf.
  rewrite Hf. simpl. now apply IH.
Qed.

Lemma download_files_rejected (fs : list file_entry) (w : World R) :
  Pathlib.suffix filename <> ".mha" ->
  existsb is_mhd fs = true ->
  download_files client filename fs w
  = (Raise (ValueError extension_message), w).
Proof.
  intros Hsuf. apply String.eqb_neq in Hsuf.
  induction fs as [|f fs IH]; simpl; intros H; [discriminate|].
  unfold is_mhd in H.
  destruct (String.eqb (image_type f) "MHD"); simpl in *.
  - rewrite Hsuf. reflexivity.
  - now apply IH.
Qed.

Lemma download_files_hit (pre post : list file_entry) (f : file_entry)
      (w : World R) :
  Pathlib.suffix filename = ".mha" ->
  existsb is_mhd pre = false ->
  is_mhd f = true ->
  download_files client filename (pre ++ f :: post) w =
  let (o, r') := get_content client (file f) (remote w) in
  let opened := [EvMkdir (Pathlib.parent filename); EvOpen filename;
                 fetch (file f)] in
  match o with
  | Return c =>
      (Return (Break tt),
       mkWorld r' (trace w ++ opened ++ [EvWrite filename c]))
  | Raise e => (Raise e, mkWorld r' (trace w ++ opened))
  end.
Proof.
  intros Hsuf Hpre Hf. apply String.eqb_eq in Hsuf.
  induction pre as [|p pre IH]; simpl in *.
  - unfold is_mhd in Hf. rewrite Hf, Hsuf. simpl.
    unfold bind, emit, call, log. simpl.
    destruct (get_content client (file f) (remote w)) as [[c|e] r'];
      simpl; rewrite <- !app_assoc; reflexivity.
  - apply orb_false_iff in Hpre as [Hp Hpre]. unfold is_mhd in Hp.
    rewrite Hp. simpl. now apply IH.
Qed.

(** Every file list is of one of the two shapes above. *)
Lemma files_split (fs : list file_entry) :
  existsb is_mhd fs = true ->
  exists pre f post,
    fs = pre ++ f :: post /\ existsb is_mhd pre = false /\ is_mhd f = true.
Proof.
  induction fs as [|g fs IH]; simpl; intros H; [discriminate|].
  destruct (is_mhd g) eqn:Hg.
  - exists [], g, fs. repeat split; assumption.
  - destruct (IH H) as (pre & f & post & -> & Hpre & Hf).
    exists (g :: pre), f, post. repeat split; simpl; try assumption.
    now rewrite Hg.
Qed.

(** One round of the outer loop, by what the image look-up gives. *)
Lemma download_results_cons (o : output) (rest : list output)
      (w : World R) :
  _download_results client (o :: rest) filename w =
  match image o with
  | None => _download_results client rest filename w
  | Some url =>
      let (a, r') := get_image client url (remote w) in
      let w' := mkWorld r' (trace w ++ [fetch url]) in
      match a with
      | Raise e => (Raise e, w')
      | Return d =>
          match download_files client filename (files d) w' with
          | (Return Continue, w'') =>
              _download_results client rest filename w''
          | (Return (Break _), w'') => (Return tt, w'')
          | (Raise e, w'') => (Raise e, w'')
          end
      end
  end.
Proof.
  simpl. destruct (image o) as [url|]; [|reflexivity].
  unfold bind at 1. unfold call, fetch.
  destruct (get_image client url (remote w)) as [[d|e] r']; [|reflexivity].
  unfold bind.
  destruct (download_files client filename (files d) _) as [[[|u]|e] w''];
    reflexivity.
Qed.

(** Outputs that yield no MHD file are passed over; their image
    documents are fetched, nothing else is done. *)
Lemma download_results_skip (skipped rest : list output) :
  Forall (barren client) skipped ->
  forall w, exists r',
    _download_results client (skipped ++ rest) filename w =
    _download_results client rest filename
      (mkWorld r' (trace w ++ map fetch (image_urls skipped))).
Proof.
  induction 1 as [|o skipped Ho _ IH]; intros w.
  - exists (remote w). destruct w; simpl. now rewrite app_nil_r.
  - rewrite <- app_comm_cons, download_results_cons.
    unfold image_urls; simpl. fold (image_urls skipped).
    destruct (image o) as [url|] eqn:Hi.
    + destruct (Ho url Hi (remote w)) as (d & r' & -> & Hd).
      cbv zeta. rewrite (download_files_none _ _ Hd).
      destruct (IH (mkWorld r' (trace w ++ [fetch url]))) as [r'' ->].
      exists r''. simpl. now rewrite <- app_assoc.
    + apply IH.
Qed.

Lemma writes_app (a b : list event) : writes (a ++ b) = writes a ++ writes b.
Proof.
  induction a as [|ev a IH]; simpl; [reflexivity|].
  destruct ev; simpl; now rewrite IH.
Qed.

Lemma writes_fetches (us : list string) : writes (map fetch us) = [].
Proof. induction us; simpl; auto. Qed.

Lemma mutations_fetches (us : list string) : mutations (map fetch us) = [].
Proof. induction us; simpl; auto. Qed.

(** What the scan of one file list adds to the trace: nothing, or the
    opening of the destination and one fetch, followed by one write
    exactly when the scan ends with [return]. *)
Lemma download_files_writes (fs : list file_entry) (w : World R) :
  exists o r' evs,
    download_files client filename fs w = (o, mkWorld r' (trace w ++ evs))
    /\ (length (writes evs) <= 1)%nat
    /\ (o = Return Continue -> writes evs = []).
Proof.
  destruct (existsb is_mhd fs) eqn:Hm.
  - destruct (String.eqb (Pathlib.suffix filename) ".mha") eqn:Hs.
    + apply String.eqb_eq in Hs.
      destruct (files_split fs Hm) as (pre & f & post & -> & Hpre & Hf).
      rewrite (download_files_hit pre post f w Hs Hpre Hf).
      destruct (get_content client (file f) (remote w)) as [[c|e] r'].
      * do 3 eexists. split; [reflexivity|]. split; [simpl; lia|].
        discriminate.
      * do 3 eexists. split; [reflexivity|]. split; [simpl; lia|].
        discriminate.
    + apply String.eqb_neq in Hs.
      rewrite (download_files_rejected fs w Hs Hm).
      exists (Raise (ValueError extension_message)), (remote w), [].
      destruct w; simpl. rewrite app_nil_r.
      split; [reflexivity|]. split; [lia|reflexivity].
  - rewrite (download_files_none fs w Hm).
    exists (Return Continue), (remote w), [].
    destruct w; simpl. rewrite app_nil_r.
    split; [reflexivity|]. split; [lia|reflexivity].
Qed.

Lemma download_results_writes (outs : list output) :
  forall w, exists o r' evs,
    _download_results client outs filename w
    = (o, mkWorld r' (trace w ++ evs))
    /\ (length (writes evs) <= 1)%nat.
Proof.
  induction outs as [|out outs IH]; intros w.
  - exists (Return tt), (remote w), []. destruct w; simpl.
    rewrite app_nil_r. split; [reflexivity|lia].
  - rewrite download_results_cons.
    destruct (image out) as [url|]; [|apply IH].
    destruct (get_image client url (remote w)) as [[d|e] r1].
    + cbv zeta.
      destruct (download_files_writes (files d)
                  (mkWorld r1 (trace w ++ [fetch url])))
        as (o & r2 & evs & -> & Hle & Hc).
      destruct o as [[|u]|e].
      * simpl trace.
        destruct (IH (mkWorld r2 ((trace w ++ [fetch url]) ++ evs)))
          as (o' & r3 & evs' & -> & Hle').
        exists o', r3, ([fetch url] ++ evs ++ evs'). simpl trace.
        split; [now rewrite <- !app_assoc|].
        rewrite !writes_app, (Hc eq_refl). simpl. exact Hle'.
      * exists (Return tt), r2, ([fetch url] ++ evs). simpl trace.
        split; [now rewrite <- !app_assoc|].
        rewrite writes_app. simpl. exact Hle.
      * exists (Raise e), r2, ([fetch url] ++ evs). simpl trace.
        split; [now rewrite <- !app_assoc|].
        rewrite writes_app. simpl. exact Hle.
    + exists (Raise e), r1, [fetch url]. split; [reflexivity|simpl; lia].
Qed.

(** With a wrong extension the step only ever fetches image documents,
    those of a first part of the outputs. *)
Lemma download_results_wrong_suffix (outs : list output) :
  Pathlib.suffix filename <> ".mha" ->
  forall w, exists o r' us more,
    _download_results client outs filename w
    = (o, mkWorld r' (trace w ++ map fetch us))
    /\ image_urls outs = us ++ more.
Proof.
  intros Hsuf. induction outs as [|out outs IH]; intros w.
  - exists (Return tt), (remote w), [], []. destruct w; simpl.
    rewrite app_nil_r. split; reflexivity.
  - rewrite download_results_cons. unfold image_urls; simpl.
    fold (image_urls outs).
    destruct (image out) as [url|]; [|apply IH].
    destruct (get_image client url (remote w)) as [[d|e] r1].
    + cbv zeta. destruct (existsb is_mhd (files d)) eqn:Hm.
      * rewrite (download_files_rejected _ _ Hsuf Hm).
        exists (Raise (ValueError extension_message)), r1, [url],
          (image_urls outs).
        split; reflexivity.
      * rewrite (download_files_none _ _ Hm).
        destruct (IH (mkWorld r1 (trace w ++ [fetch url])))
          as (o & r2 & us & more & -> & Hus).
        exists o, r2, (url :: us), more. simpl.
        split; [now rewrite <- app_assoc|now rewrite Hus].
    + exists (Raise e), r1, [url], (image_urls outs). split; reflexivity.
Qed.

End Download.

(** The round of the outer loop that finds the mask. *)
Lemma download_results_hit {R} (client : Client R) (filename : string)
    (url : string) (rest : list output) (w : World R) d r1 pre f post c r2 :
  Pathlib.suffix filename = ".mha" ->
  get_image client url (remote w) = (Return d, r1) ->
  files d = pre ++ f :: post ->
  existsb is_mhd pre = false ->
  is_mhd f = true ->
  get_content client (file f) r1 = (Return c, r2) ->
  _download_results client (mkOutput (Some url) :: rest) filename w =
  (Return tt,
   mkWorld r2 (trace w ++ [fetch url; EvMkdir (Pathlib.parent filename);
                           EvOpen filename; fetch (file f);
                           EvWrite filename c])).
Proof.
  intros Hsuf Hg Hfs Hpre Hf Hc.
  rewrite download_results_cons. cbn [image]. rewrite Hg. cbv zeta.
  rewrite Hfs, (download_files_hit client filename pre post f _ Hsuf Hpre Hf).
  simpl remote. rewrite Hc. simpl. now rewrite <- app_assoc.
Qed.

(** The claim at the destination "result.png" and one output whose image
    lists an MHD file: the ValueError is raised, but only after the image
    document has been fetched over the network.  With no output at all no
    error is raised. *)
Lemma extension_check_counterexample :
  Pathlib.suffix "result.png" <> ".mha" /\
  _download_results scripted [mkOutput (Some "image-url")] "result.png"
    quiet_world
  = (Raise (ValueError "Output file needs to have .mha extension"),
     mkWorld (sample_script [] []) [fetch "image-url"]) /\
  ~ rejects_before_io scripted [mkOutput (Some "image-url")] "result.png"
      quiet_world /\
  _download_results scripted [] "result.png" quiet_world
  = (Return tt, quiet_world) /\
  ~ rejects_before_io scripted [] "result.png" quiet_world.
Proof.
  split; [|split; [|split; [|split]]].
  - vm_compute. discriminate.
  - reflexivity.
  - intros [msg H]. vm_compute in H. discriminate H.
  - reflexivity.
  - intros [msg H]. vm_compute in H. discriminate H.
Qed.

(** C2, amended. Let the destination's extension differ from ".mha".
    (1) When the scan of an image's files reaches a file of type MHD, the
    ValueError is raised at that point with nothing done by the scan: before
    the file's content is fetched and before any directory is made or file
    opened or written.  (2) So an output whose image lists an MHD file ends
    the step with that error right after the fetch of its image document.
    (3) Whatever the outputs and however the step ends, all it has done is
    fetch image documents of a first part of the outputs: there is no
    file-system mutation.  (4) When no output yields an MHD file, no error
    is raised at all. *)
Theorem wrong_extension_rejected_at_first_mask {R} (client : Client R)
    (filename : string) :
  Pathlib.suffix filename <> ".mha" ->
  let error := ValueError "Output file needs to have .mha extension" in
  (forall fs w,
      existsb is_mhd fs = true ->
      download_files client filename fs w = (Raise error, w)) /\
  (forall url rest w d r1,
      get_image client url (remote w) = (Return d, r1) ->
      existsb is_mhd (files d) = true ->
      _download_results client (mkOutput (Some url) :: rest) filename w
      = (Raise error, mkWorld r1 (trace w ++ [fetch url]))) /\
  (forall outs w, exists o r' us more,
      _download_results client outs filename w
      = (o, mkWorld r' (trace w ++ map fetch us)) /\
      image_urls outs = us ++ more /\
      mutations (map fetch us) = []) /\
  (forall outs w,
      Forall (barren client) outs ->
      fst (_download_results client outs filename w) = Return tt).
Proof.
  intros Hsuf error. split; [|split; [|split]].
  - intros fs w Hm. now apply download_files_rejected.
  - intros url rest w d r1 Hg Hm.
    rewrite download_results_cons. cbn [image]. rewrite Hg. cbv zeta.
    now rewrite (download_files_rejected client filename _ _ Hsuf Hm).
  - intros outs w.
    destruct (download_results_wrong_suffix client filename outs Hsuf w)
      as (o & r' & us & more & E & Hus).
    exists o, r', us, more. split; [exact E|]. split; [exact Hus|].
    apply mutations_fetches.
  - intros outs w Hb.
    destruct (download_results_skip client filename outs [] Hb w) as [r' E].
    rewrite app_nil_r in E. rewrite E. reflexivity.
Qed.

(** Destination "result.png": the output with an MHD file is rejected
    after one fetch and without any file-system event. *)
Lemma wrong_extension_rejected_at_first_mask_witness :
  Pathlib.suffix "result.png" <> ".mha" /\
  _download_results quiet
    [mkOutput (Some "image-url"); mkOutput (Some "other-url")]
    "result.png" start
  = (Raise (ValueError "Output file needs to have .mha extension"),
     mkWorld tt [fetch "image-url"]).
Proof.
  assert (Hsuf : Pathlib.suffix "result.png" <> ".mha")
    by (vm_compute; discriminate).
  split; [exact Hsuf|].
  pose proof (wrong_extension_rejected_at_first_mask quiet "result.png" Hsuf)
    as (_ & Hhit & _).
  exact (Hhit "image-url" [mkOutput (Some "other-url")] start
              sample_image tt eq_refl eq_refl).
Defined.

(** C5. If no output yields an MHD file (each output has no image, or its
    image document is served and lists no file of type MHD), the download
    step returns normally: no exception, no write, no file-system event at
    all.  All it does is fetch the image documents, in order. *)
Theorem download_without_mask_is_silent {R} (client : Client R)
    (outs : list output) (filename : string) (w : World R) :
  Forall (barren client) outs ->
  exists r',
    let did := map fetch (image_urls outs) in
    _download_results client outs filename w
    = (Return tt, mkWorld r' (trace w ++ did)) /\
    writes did = [] /\
    mutations did = [].
Proof.
  intros Hb.
  destruct (download_results_skip client filename outs [] Hb w) as [r' E].
  rewrite app_nil_r in E. exists r'. cbv zeta. split; [exact E|].
  split; [apply writes_fetches|apply mutations_fetches].
Qed.

(** An output without image and one whose image has only a JPEG file. *)
Lemma download_without_mask_is_silent_witness :
  _download_results quiet
    [mkOutput None; mkOutput (Some "plain-url")] "out/mask.mha" start
  = (Return tt, mkWorld tt [fetch "plain-url"]).
Proof.
  destruct (download_without_mask_is_silent quiet
              [mkOutput None; mkOutput (Some "plain-url")] "out/mask.mha"
              start)
    as (r' & E & _).
  - repeat constructor.
    + intros url H. discriminate H.
    + intros url H r. injection H as <-.
      exists plain_image, r. split; reflexivity.
  - destruct r'. exact E.
Defined.

(** C9. (1) For outputs that start with one without image followed by one
    whose image X lists a JPEG file and then an MHD file with content
    address Y, and a destination ending in ".mha": the step fetches X's
    document, makes the parent directory, opens the destination, fetches Y
    and writes exactly Y's content to the destination, then returns; what
    follows in the file list and in the outputs is not looked at.  (2) For
    every sequence of outputs, every client and every destination, the step
    writes at most once, however it ends. *)
Theorem download_first_mask_only {R} (client : Client R)
    (filename : string) :
  (forall X jpeg mhd more_files more_outs (w : World R) d r1 c r2,
      Pathlib.suffix filename = ".mha" ->
      get_image client X (remote w) = (Return d, r1) ->
      files d = jpeg :: mhd :: more_files ->
      image_type jpeg = "JPEG" ->
      image_type mhd = "MHD" ->
      get_content client (file mhd) r1 = (Return c, r2) ->
      let did := [fetch X; EvMkdir (Pathlib.parent filename);
                  EvOpen filename; fetch (file mhd); EvWrite filename c] in
      _download_results client
        (mkOutput None :: mkOutput (Some X) :: more_outs) filename w
      = (Return tt, mkWorld r2 (trace w ++ did)) /\
      writes did = [(filename, c)]) /\
  (forall outs (w : World R), exists o r' evs,
      _download_results client outs filename w
      = (o, mkWorld r' (trace w ++ evs)) /\
      (length (writes evs) <= 1)%nat).
Proof.
  split.
  - intros X jpeg mhd more_files more_outs w d r1 c r2
           Hsuf Hg Hfs Hj Hm Hc did.
    split; [|reflexivity].
    rewrite download_results_cons. cbn [image].
    apply (download_results_hit client filename X more_outs w d r1
             [jpeg] mhd more_files c r2 Hsuf Hg Hfs); [| |exact Hc].
    + simpl. unfold is_mhd. now rewrite Hj.
    + unfold is_mhd. now rewrite Hm.
  - intros outs w. apply download_results_writes.
Qed.

(** The outputs of the statement, followed by a second output that has an
    MHD file as well: one write, of the first mask. *)
Lemma download_first_mask_only_witness :
  _download_results quiet
    [mkOutput None; mkOutput (Some "image-url"); mkOutput (Some "other-url")]
    "out/mask.mha" start
  = (Return tt,
     mkWorld tt [fetch "image-url"; EvMkdir "out"; EvOpen "out/mask.mha";
                 fetch "mask-url"; EvWrite "out/mask.mha" sample_mask]).
Proof.
  exact (proj1 (proj1 (download_first_mask_only quiet "out/mask.mha")
                  "image-url" (mkFile "JPEG" "thumb-url")
                  (mkFile "MHD" "mask-url") [] [mkOutput (Some "other-url")]
                  start sample_image tt sample_mask tt
                  eq_refl eq_refl eq_refl eq_refl eq_refl eq_refl)).
Defined.

(** C10. Let the first output carry an image reference whose document is
    served and lists no MHD file.  Then the step goes on: it passes over
    that output and over every following output that yields no MHD file,
    and at the first later output whose image document lists an MHD file it
    writes that file's content (the first MHD file of that document) to
    the destination and returns. *)
Theorem download_scans_past_maskless_image {R} (client : Client R)
    (filename : string) (first_url : string) (o1 : output)
    (mid rest : list output) (url : string) (w : World R)
    d pre f post c :
  Pathlib.suffix filename = ".mha" ->
  image o1 = Some first_url ->
  barren client o1 ->
  Forall (barren client) mid ->
  (forall r, exists r', get_image client url r = (Return d, r')) ->
  files d = pre ++ f :: post ->
  existsb is_mhd pre = false ->
  image_type f = "MHD" ->
  (forall r, exists r', get_content client (file f) r = (Return c, r')) ->
  exists r',
    let did :=
      fetch first_url :: map fetch (image_urls mid) ++
      [fetch url; EvMkdir (Pathlib.parent filename); EvOpen filename;
       fetch (file f); EvWrite filename c] in
    _download_results client (o1 :: mid ++ mkOutput (Some url) :: rest)
                      filename w
    = (Return tt, mkWorld r' (trace w ++ did)) /\
    writes did = [(filename, c)].
Proof.
  intros Hsuf Ho1 Hb1 Hmid Hg Hfs Hpre Hf Hc.
  assert (Hskip : Forall (barren client) (o1 :: mid)) by now constructor.
  destruct (download_results_skip client filename (o1 :: mid)
              (mkOutput (Some url) :: rest) Hskip w) as [r1 E].
  destruct (Hg r1) as [r2 Hg2]. destruct (Hc r2) as [r3 Hc3].
  exists r3. cbv zeta. split.
  - rewrite <- app_comm_cons in E. rewrite E.
    rewrite (download_results_hit client filename url rest
               (mkWorld r1 _) d r2 pre f post c r3 Hsuf Hg2 Hfs Hpre);
      [|unfold is_mhd; now rewrite Hf|exact Hc3].
    unfold image_urls at 1. simpl. rewrite Ho1. simpl.
    fold (image_urls mid). now rewrite <- !app_assoc.
  - rewrite app_comm_cons, writes_app.
    change (fetch first_url :: map fetch (image_urls mid))
      with (map fetch (first_url :: image_urls mid)).
    now rewrite writes_fetches.
Qed.

(** First a JPEG-only image, then an output without image, then the
    image with the mask. *)
Lemma download_scans_past_maskless_image_witness :
  _download_results quiet
    [mkOutput (Some "plain-url"); mkOutput None; mkOutput (Some "image-url")]
    "out/mask.mha" start
  = (Return tt,
     mkWorld tt [fetch "plain-url"; fetch "image-url"; EvMkdir "out";
                 EvOpen "out/mask.mha"; fetch "mask-url";
                 EvWrite "out/mask.mha" sample_mask]).
Proof.
  destruct (download_scans_past_maskless_image
              quiet "out/mask.mha" "plain-url"
              (mkOutput (Some "plain-url")) [mkOutput None] []
              "image-url" start sample_image
              [mkFile "JPEG" "thumb-url"] (mkFile "MHD" "mask-url") []
              sample_mask)
    as (r' & E & _).
  - reflexivity.
  - reflexivity.
  - intros u H r. injection H as <-.
    exists plain_image, r. split; reflexivity.
  - repeat constructor. intros u H. discriminate H.
  - intros r. exists r. reflexivity.
  - reflexivity.
  - reflexivity.
  - reflexivity.
  - intros r. exists r. reflexivity.
  - destruct r'. exact E.
Defined.

(* ================================================================== *)
(** * Construction: the headstart *)

(** The claim at an average duration of 10 seconds, and at a record
    without the key: the headstart is 7 seconds, which is not 75% of 10;
    and without the key the constructor raises KeyError instead of falling
    back to 30. *)
Lemma headstart_counterexample :
  __init__ (average_service (Some (Some (inject_Z 10)))) "token" "lungs" start
  = (Return (mkGrandChallengeAlgorithm "lungs" (mkThrottledRetries 25 15)
               "alg-1" 7),
     mkWorld tt [EvRequest (ReqAlgorithms "lungs")]) /\
  ~ (inject_Z 7 == inject_Z 10 * (3 # 4))%Q /\
  __init__ (average_service None) "token" "lungs" start
  = (Raise KeyError, mkWorld tt [EvRequest (ReqAlgorithms "lungs")]).
Proof.
  split; [vm_compute; reflexivity|]. split; [|vm_compute; reflexivity].
  intros H. vm_compute in H. discriminate H.
Qed.



(* ================================================================== *)
(** * The model at work *)

Example suffix_samples :
  Pathlib.suffix "result.png" = ".png" /\
  Pathlib.suffix "out/mask.mha" = ".mha" /\
  Pathlib.suffix "out.d/mask" = EmptyString /\
  Pathlib.suffix ".mha" = EmptyString /\
  Pathlib.parent "out/mask.mha" = "out" /\
  Pathlib.parent "mask.mha" = ".".
Proof. repeat split. Qed.

(** The last but one is the double just below 4/3, 1.3333333333333333:
    its product with 0.75 rounds to 1.0. *)
Example headstart_samples :
  headstart_of (Some (inject_Z 100)) = Return 75 /\
  headstart_of (Some (inject_Z 10)) = Return 7 /\
  headstart_of (Some (1 # 2)) = Return 0 /\
  headstart_of (Some (inject_Z 0)) = Return 30 /\
  headstart_of None = Return 30 /\
  headstart_of (Some (6004799503160661 # 4503599627370496)) = Return 1 /\
  headstart_of (Some (inject_Z (2 ^ 1024))) = Raise OverflowError.
Proof. repeat split; vm_compute; reflexivity. Qed.

(** Doubles: 0.1 is 3602879701896397 / 2^55, and 0.1 * 1.5 rounds up to
    0.15000000000000002; 2^53 + 1 is a tie and goes to the even 2^53. *)
Example nearest_samples :
  Double.nearest (1 # 10) = 3602879701896397 # 36028797018963968 /\
  Double.nearest (Double.nearest (1 # 10) * (3 # 2))
  = 1351079888211149 # 9007199254740992 /\
  Double.nearest (inject_Z (2 ^ 53 + 1)) = inject_Z (2 ^ 53) /\
  Double.nearest (15 * (3 # 2) ^ 7) = 32805 # 128.
Proof. repeat split; vm_compute; reflexivity. Qed.

(** The generator stepped by hand: index 0 at once, index 1 after 22.5
    seconds, then [StopIteration]. *)
Example next_samples :
  let g := __iter__ (mkThrottledRetries 2 15) in
  next g start
  = (Return (Some 0, mkGenerator (mkThrottledRetries 2 15) [1]),
     mkWorld tt [EvYield 0]) /\
  next (mkGenerator (mkThrottledRetries 2 15) [1]) start
  = (Return (Some 1, mkGenerator (mkThrottledRetries 2 15) []),
     mkWorld tt [EvSleep (Qmin (15 * (3 # 2) ^ 1) 300); EvYield 1]) /\
  next (mkGenerator (mkThrottledRetries 2 15) []) start
  = (Return (None, mkGenerator (mkThrottledRetries 2 15) []), start) /\
  (Qmin (15 * (3 # 2) ^ 1) 300 == 45 # 2)%Q /\
  (Qmin (15 * (3 # 2) ^ 8) 300 == 300)%Q.
Proof. repeat split. Qed.

(** A whole run: the import needs three polls, the job two, and the mask
    of the second output is written. *)
Example run_sample :
  let service :=
    sample_script
      [Raise IOError;
       Return (mkSessionDetails "Queued" []);
       Return (mkSessionDetails "Succeeded" ["image-url"])]
      [Return [];
       Return [mkJob "Succeeded"
                 [mkOutput None; mkOutput (Some "result-url")]]] in
  let poll := EvRequest (ReqSessionDetail "upload-1") in
  let page := EvRequest (ReqJobsPage "alg-1" "image-1" 1) in
  let r := run scripted sample_driver ["scan.mha"] "out/mask.mha"
             (mkWorld service []) in
  fst r = Return tt /\
  trace (snd r) =
  [EvPrint ("Uploading to grand-challenge.org to run " ++ quoted "lungs");
   EvRequest (ReqUploadCases ["scan.mha"] "lungs");
   EvPrint ("Waiting for image import to finish for algorithm "
            ++ quoted "lungs");
   EvSleep 30;
   EvYield 0; poll;
   EvSleep (Qmin (15 * (3 # 2) ^ 1) 300); EvYield 1; poll;
   EvSleep (Qmin (15 * (3 # 2) ^ 2) 300); EvYield 2; poll;
   fetch "image-url";
   EvPrint ("Waiting for results of algorithm " ++ quoted "lungs");
   EvSleep (inject_Z 75);
   EvYield 0; page;
   EvSleep (Qmin (15 * (3 # 2) ^ 1) 300); EvYield 1; page;
   EvPrint ("Downloading results of algorithm " ++ quoted "lungs");
   fetch "result-url"; EvMkdir "out"; EvOpen "out/mask.mha";
   fetch "mask-url"; EvWrite "out/mask.mha" sample_mask].
Proof. split; reflexivity. Qed.

(* ================================================================== *)
(** * Further properties: the back-off schedule *)

Lemma backoff_le_cap (self : ThrottledRetries) (n : Z) :
  (backoff self n <= 300)%Q.
Proof. apply Q.le_min_r. Qed.

Lemma sleeps_app (a b : list event) : sleeps (a ++ b) = sleeps a ++ sleeps b.
Proof.
  induction a as [|ev a IH]; simpl; [reflexivity|].
  destruct ev; simpl; now rewrite IH.
Qed.

Lemma sleeps_round (self : ThrottledRetries) (n : Z) :
  sleeps (round_events self n) = if 0 <? n then [backoff self n] else [].
Proof. unfold round_events; destruct (0 <? n); reflexivity. Qed.

Lemma sleeps_pass (self : ThrottledRetries) (l : list Z) :
  sleeps (flat_map (round_events self) l)
  = map (backoff self) (filter (fun n => 0 <? n) l).
Proof.
  induction l as [|n l IH]; simpl; [reflexivity|].
  rewrite sleeps_app, sleeps_round, IH. destruct (0 <? n); reflexivity.
Qed.

Lemma filter_positive_from (a k : nat) :
  (1 <= a)%nat ->
  filter (fun n => 0 <? n) (map Z.of_nat (seq a k)) = map Z.of_nat (seq a k).
Proof.
  revert a. induction k as [|k IH]; intros a Ha; simpl; [reflexivity|].
  rewrite IH by lia.
  destruct (0 <? Z.of_nat a) eqn:E; [reflexivity|].
  apply Z.ltb_ge in E. lia.
Qed.

Lemma filter_positive_range (n : Z) :
  filter (fun n => 0 <? n) (range n) = tl (range n).
Proof.
  unfold range. destruct (Z.to_nat n) as [|k]; [reflexivity|].
  simpl. apply filter_positive_from. lia.
Qed.

Lemma Qsum_le_cap (c : Q) (l : list Q) :
  Forall (fun q => (q <= c)%Q) l ->
  (Qsum l <= c * inject_Z (Z.of_nat (length l)))%Q.
Proof.
  induction 1 as [|q l Hq _ IH].
  - simpl. rewrite Qmult_0_r. apply Qle_refl.
  - cbn [Qsum fold_right length]. fold (Qsum l).
    rewrite Nat2Z.inj_succ, <- Z.add_1_r, inject_Z_plus.
    rewrite Qmult_plus_distr_r, Qmult_1_r, Qplus_comm.
    now apply Qplus_le_compat.
Qed.

Lemma Forall_backoff_cap (self : ThrottledRetries) (l : list Z) :
  Forall (fun q => (q <= 300)%Q) (map (backoff self) l).
Proof.
  induction l; simpl; constructor; [apply backoff_le_cap|assumption].
Qed.

(* ================================================================== *)
(** * Further properties: what a polling loop can do at most *)

Lemma writes_round (self : ThrottledRetries) (n : Z) :
  writes (round_events self n) = [].
Proof. unfold round_events; destruct (0 <? n); reflexivity. Qed.

Lemma world_eta {R} (w : World R) : mkWorld (remote w) (trace w ++ []) = w.
Proof. destruct w; simpl. now rewrite app_nil_r. Qed.

(** A loop whose every round makes one poll of its own kind and none of
    the [other] kind, neither sleeps nor yields by itself, and writes at
    most [wmax] times, and not at all when it goes on: the indices handed
    out are a first part of the pending ones, every index but 0 is preceded
    by its back-off sleep, there is one poll an index, and at most [wmax]
    writes. *)
Lemma for_loop_budget {R A} (p : ThrottledRetries)
    (is_poll other : request -> bool) (wmax : nat)
    (body : Z -> M R (flow A)) (orelse : M R A) :
  (forall n w, exists o r' evs,
      body n w = (o, mkWorld r' (trace w ++ evs)) /\
      slots evs = [] /\ sleeps evs = [] /\
      length (filter is_poll (requests evs)) = 1%nat /\
      filter other (requests evs) = [] /\
      (length (writes evs) <= wmax)%nat /\
      (o = Return Continue -> writes evs = [])) ->
  (forall w, exists o, orelse w = (o, w)) ->
  forall pending w, exists o r' evs handed rest,
    for_loop p pending body orelse w = (o, mkWorld r' (trace w ++ evs)) /\
    pending = handed ++ rest /\
    slots evs = handed /\
    sleeps evs = map (backoff p) (filter (fun n => 0 <? n) handed) /\
    length (filter is_poll (requests evs)) = length handed /\
    filter other (requests evs) = [] /\
    (length (writes evs) <= wmax)%nat.
Proof.
  intros Hbody Helse pending.
  induction pending as [|n pending IH]; intros w.
  - destruct (Helse w) as [o E].
    exists o, (remote w), [], [], []. simpl. rewrite world_eta.
    repeat split; [exact E|lia].
  - rewrite for_loop_cons.
    destruct (Hbody n (log (round_events p n) w))
      as (o & r1 & evs & E & Hs & Hz & Hp & Ho & Hw & Hc).
    rewrite E. simpl trace.
    assert (Hround :
              slots (round_events p n ++ evs) = [n] /\
              sleeps (round_events p n ++ evs)
              = map (backoff p) (filter (fun n => 0 <? n) [n]) /\
              length (filter is_poll (requests (round_events p n ++ evs)))
              = 1%nat /\
              filter other (requests (round_events p n ++ evs)) = [] /\
              writes (round_events p n ++ evs) = writes evs).
    { rewrite slots_app, sleeps_app, requests_app, writes_app.
      rewrite slots_round, sleeps_round, requests_round, writes_round.
      rewrite Hs, Hz. simpl. rewrite app_nil_r.
      repeat split; try assumption. destruct (0 <? n); reflexivity. }
    destruct Hround as (Rs & Rz & Rp & Ro & Rw).
    destruct o as [[|a]|e].
    + destruct (IH (mkWorld r1 ((trace w ++ round_events p n) ++ evs)))
        as (o' & r2 & evs' & handed & rest & E' & Hpre & Hs' & Hz' & Hp'
            & Ho' & Hw').
      rewrite E'. simpl trace.
      exists o', r2, ((round_events p n ++ evs) ++ evs'), (n :: handed), rest.
      split; [now rewrite <- !app_assoc|]. split; [now rewrite Hpre|].
      rewrite slots_app, sleeps_app, requests_app, writes_app, !filter_app.
      rewrite Rs, Rz, Rw, Ro, Ho', Hs', Hz', (Hc eq_refl), length_app, Rp, Hp'.
      repeat split; try assumption.
      simpl. destruct (0 <? n); reflexivity.
    + exists (Return a), r1, (round_events p n ++ evs), [n], pending.
      split; [now rewrite <- !app_assoc|].
      rewrite Rs, Rz, Rp, Ro, Rw. repeat split; assumption.
    + exists (Raise e), r1, (round_events p n ++ evs), [n], pending.
      split; [now rewrite <- !app_assoc|].
      rewrite Rs, Rz, Rp, Ro, Rw. repeat split; assumption.
Qed.

(** The positive indices of a first part of [range n] are all but the
    first. *)
Lemma filter_positive_prefix (n : Z) (handed rest : list Z) :
  range n = handed ++ rest ->
  filter (fun n => 0 <? n) handed = tl handed.
Proof.
  unfold range. intros H.
  destruct handed as [|h handed]; [reflexivity|].
  destruct (Z.to_nat n) as [|k]; [discriminate|].
  simpl in H. injection H as <- H. simpl.
  apply filter_all.
  pose proof (positive_from 1 k (le_n 1)) as P. rewrite H in P.
  apply Forall_app in P. apply P.
Qed.

(* ================================================================== *)
(** * Further properties: the shape of every download *)

Section DownloadShape.
Context {R : Type} (client : Client R) (filename : string).

(** The scan of one file list does nothing, or opens the destination and
    fetches the content of an MHD file of the list; it writes exactly when
    it ends with [return]. *)
Lemma download_files_shape (fs : list file_entry) (w : World R) :
  exists o r' tail,
    download_files client filename fs w = (o, mkWorld r' (trace w ++ tail)) /\
    ((tail = [] /\
      (o = Return Continue \/ o = Raise (ValueError extension_message))) \/
     (exists f e, In f fs /\ tail = opening filename (file f) /\
                  o = Raise e) \/
     (exists f c, In f fs /\
                  tail = opening filename (file f) ++ [EvWrite filename c] /\
                  o = Return (Break tt))).
Proof.
  destruct (existsb is_mhd fs) eqn:Hm.
  - destruct (String.eqb (Pathlib.suffix filename) ".mha") eqn:Hs.
    + apply String.eqb_eq in Hs.
      destruct (files_split fs Hm) as (pre & f & post & -> & Hpre & Hf).
      rewrite (download_files_hit client filename pre post f w Hs Hpre Hf).
      assert (Hin : In f (pre ++ f :: post))
        by (apply in_or_app; right; left; reflexivity).
      destruct (get_content client (file f) (remote w)) as [[c|e] r'].
      * do 3 eexists. split; [reflexivity|]. right; right.
        exists f, c. repeat split. exact Hin.
      * do 3 eexists. split; [reflexivity|]. right; left.
        exists f, e. repeat split. exact Hin.
    + apply String.eqb_neq in Hs.
      rewrite (download_files_rejected client filename fs w Hs Hm).
      exists (Raise (ValueError extension_message)), (remote w), [].
      rewrite world_eta. split; [reflexivity|]. left. split; auto.
  - rewrite (download_files_none client filename fs w Hm).
    exists (Return Continue), (remote w), [].
    rewrite world_eta. split; [reflexivity|]. left. split; auto.
Qed.

Lemma download_results_shape (outs : list output) :
  forall w, exists o r' us more tail,
    _download_results client outs filename w
    = (o, mkWorld r' (trace w ++ map fetch us ++ tail)) /\
    image_urls outs = us ++ more /\
    (tail = [] \/
     (exists url e, tail = opening filename url /\ o = Raise e) \/
     (exists url c, tail = opening filename url ++ [EvWrite filename c] /\
                    o = Return tt)).
Proof.
  induction outs as [|out outs IH]; intros w.
  - exists (Return tt), (remote w), [], [], []. simpl. rewrite world_eta.
    repeat split. now left.
  - rewrite download_results_cons. unfold image_urls; simpl.
    fold (image_urls outs).
    destruct (image out) as [url|]; [|apply IH].
    destruct (get_image client url (remote w)) as [[d|e] r1].
    + cbv zeta.
      destruct (download_files_shape (files d)
                  (mkWorld r1 (trace w ++ [fetch url])))
        as (o & r2 & tail & -> & Hshape). simpl trace.
      destruct Hshape as [[-> [-> | ->]] | [(f & e & _ & -> & ->) |
                                             (f & c & _ & -> & ->)]].
      * rewrite app_nil_r.
        destruct (IH (mkWorld r2 (trace w ++ [fetch url])))
          as (o & r3 & us & more & tail & -> & Hus & Htail).
        exists o, r3, (url :: us), more, tail. simpl trace.
        split; [simpl; now rewrite <- !app_assoc|].
        split; [simpl; now rewrite Hus|exact Htail].
      * exists (Raise (ValueError extension_message)), r2, [url],
          (image_urls outs), [].
        rewrite !app_nil_r. repeat split. now left.
      * exists (Raise e), r2, [url], (image_urls outs),
          (opening filename (file f)).
        split; [simpl; now rewrite <- !app_assoc|]. split; [reflexivity|].
        right; left. now exists (file f), e.
      * exists (Return tt), r2, [url], (image_urls outs),
          (opening filename (file f) ++ [EvWrite filename c]).
        split; [simpl; now rewrite <- !app_assoc|]. split; [reflexivity|].
        right; right. now exists (file f), c.
    + exists (Raise e), r1, [url], (image_urls outs), [].
      rewrite !app_nil_r. repeat split. now left.
Qed.

End DownloadShape.

(** X3. Whatever the outputs, the destination and the service, and however
    the download step ends, what it has done is: fetch the image documents
    of a first part of the outputs, in order, and then at most once make
    the destination's parent directory, open the destination, fetch one
    content and write it to the destination.  No other file is touched; if
    the step returns after opening the destination it has written it, and
    if it opened without writing it has raised. *)
Theorem download_shape {R} (client : Client R) (outs : list output)
    (filename : string) (w : World R) :
  exists o r' us more tail,
    _download_results client outs filename w
    = (o, mkWorld r' (trace w ++ map fetch us ++ tail)) /\
    image_urls outs = us ++ more /\
    (tail = [] \/
     (exists url e,
         tail = [EvMkdir (Pathlib.parent filename); EvOpen filename;
                 fetch url] /\
         o = Raise e) \/
     (exists url c,
         tail = [EvMkdir (Pathlib.parent filename); EvOpen filename;
                 fetch url; EvWrite filename c] /\
         o = Return tt)).
Proof. apply download_results_shape. Qed.

Lemma download_events_plain (us : list string) (tail : list event)
    (filename : string) :
  (tail = [] \/
   (exists url, tail = opening filename url) \/
   (exists url c, tail = opening filename url ++ [EvWrite filename c])) ->
  Forall (fun ev => is_download_event ev = true) (map fetch us ++ tail).
Proof.
  intros H. apply Forall_app. split.
  - induction us; simpl; constructor; auto.
  - destruct H as [-> | [[url ->] | (url & c & ->)]];
      repeat constructor.
Qed.

(** Download events are no sleeps, no yields and no polls. *)
Lemma download_events_quiet (evs : list event) :
  Forall (fun ev => is_download_event ev = true) evs ->
  slots evs = [] /\ sleeps evs = [] /\
  filter is_job_poll (requests evs) = [] /\
  filter is_session_poll (requests evs) = [].
Proof.
  induction 1 as [|ev evs Hev _ (IH1 & IH2 & IH3 & IH4)];
    [repeat split|].
  destruct ev as [q|n|msg|[]|dir|path|path data]; try discriminate Hev;
    simpl; repeat split; assumption.
Qed.

(* ================================================================== *)
(** * Further properties: the rounds of the two loops *)

Section Rounds.
Context {R : Type} (client : Client R) (self : GrandChallengeAlgorithm).

(** The poll reports "Succeeded" and the look-up of the first image
    reference raises. *)
Lemma import_body_lookup_raise (s : session) n (w : World R) d r1 url more
      e r2 :
  session_detail client (session_pk s) (remote w) = (Return d, r1) ->
  session_status d = "Succeeded" ->
  image_set d = url :: more ->
  get_image client url r1 = (Raise e, r2) ->
  import_body client self s n w =
  (if is_IndexError e then Raise (RuntimeError not_imported_message)
   else if is_IOError e then Return Continue
        else Raise e,
   mkWorld r2 (trace w ++ [EvRequest (ReqSessionDetail (session_pk s));
                           fetch url])).
Proof.
  intros H Hs Hi Hg. unfold import_body, try_except_else.
  rewrite (call_eq _ _ _ _ _ H). simpl. rewrite Hs, Hi. simpl.
  unfold bind at 1. unfold ret at 1.
  unfold bind. rewrite (call_mk _ _ _ _ _ _ Hg).
  unfold fetch. rewrite <- app_assoc. simpl.
  destruct (is_IndexError e); [reflexivity|].
  destruct (is_IOError e); reflexivity.
Qed.

(** A status is rejected, or is "Succeeded", or keeps the loop going. *)
Lemma status_cases (status : string) :
  failed_or_cancelled status = true \/
  status = "Succeeded" \/
  pending_status status = true.
Proof.
  unfold pending_status.
  destruct (failed_or_cancelled status); [now left|].
  destruct (String.eqb status "Succeeded") eqn:E.
  - right; left. now apply String.eqb_eq.
  - right; right. reflexivity.
Qed.

(** One round of the import loop: one poll and at most one look-up. *)
Lemma import_body_round (s : session) n (w : World R) :
  exists o r' evs,
    import_body client self s n w = (o, mkWorld r' (trace w ++ evs)) /\
    (evs = [EvRequest (ReqSessionDetail (session_pk s))] \/
     exists url, evs = [EvRequest (ReqSessionDetail (session_pk s));
                        fetch url]).
Proof.
  destruct (session_detail client (session_pk s) (remote w)) as [[d|e] r1]
    eqn:H.
  - destruct (status_cases (session_status d)) as [Hs | [Hs | Hs]].
    + rewrite (import_body_rejected client self s n w d r1 H Hs).
      do 3 eexists. split; [reflexivity|now left].
    + destruct (image_set d) as [|url more] eqn:Hi.
      * rewrite (import_body_no_image client self s n w d r1 H Hs Hi).
        do 3 eexists. split; [reflexivity|now left].
      * destruct (get_image client url r1) as [[img|e] r2] eqn:Hg.
        -- rewrite (import_body_imported client self s n w d r1 url more
                      img r2 H Hs Hi Hg).
           do 3 eexists. split; [reflexivity|right; now exists url].
        -- rewrite (import_body_lookup_raise s n w d r1 url more e r2
                      H Hs Hi Hg).
           do 3 eexists. split; [reflexivity|right; now exists url].
    + rewrite (import_body_pending client self s n w d r1 H Hs).
      do 3 eexists. split; [reflexivity|now left].
  - rewrite (import_body_raise client self s n w e r1 H). cbv zeta.
    destruct (is_IOError e); do 3 eexists; (split; [reflexivity|now left]).
Qed.

(** One round of the job loop, by the answer to its poll. *)
Lemma job_body_eq (image_uuid output_file : string) n (w : World R) :
  job_body client self image_uuid output_file n w =
  let (o, r1) :=
    jobs_page client (algorithm_uuid self) image_uuid 1 (remote w) in
  let w1 :=
    mkWorld r1 (trace w ++
                [EvRequest (ReqJobsPage (algorithm_uuid self) image_uuid 1)])
  in
  match o with
  | Raise e =>
      if (is_IOError e || is_IndexError e)%bool
      then (Return Continue, w1) else (Raise e, w1)
  | Return [] => (Return Continue, w1)
  | Return (j :: _) =>
      if failed_or_cancelled (job_status j) then
        (Raise (RuntimeError (failed_message (algorithm self))), w1)
      else if String.eqb (job_status j) "Succeeded" then
        match _download_results client (outputs j) output_file
                (log [EvPrint (downloading_message (algorithm self))] w1)
        with
        | (Return _, w2) => (Return (Break tt), w2)
        | (Raise e, w2) => (Raise e, w2)
        end
      else (Return Continue, w1)
  end.
Proof.
  unfold job_body, try_except_else, bind at 1, call.
  destruct (jobs_page client _ _ _ _) as [[[|j page]|e] r1]; simpl.
  - reflexivity.
  - destruct (failed_or_cancelled (job_status j)); [reflexivity|].
    destruct (String.eqb (job_status j) "Succeeded"); [|reflexivity].
    unfold bind, print, emit, downloading_message.
    destruct (_download_results client (outputs j) output_file _)
      as [[u|e] w2]; reflexivity.
  - destruct (is_IOError e || is_IndexError e)%bool; reflexivity.
Qed.

Lemma job_body_round (image_uuid output_file : string) n (w : World R) :
  exists o r' evs,
    job_body client self image_uuid output_file n w
    = (o, mkWorld r' (trace w ++ evs)) /\
    slots evs = [] /\ sleeps evs = [] /\
    length (filter is_job_poll (requests evs)) = 1%nat /\
    filter is_session_poll (requests evs) = [] /\
    (length (writes evs) <= 1)%nat /\
    (o = Return Continue -> writes evs = []).
Proof.
  rewrite job_body_eq.
  destruct (jobs_page client _ _ _ _) as [[[|j page]|e] r1]; cbv zeta.
  - do 3 eexists. split; [reflexivity|]. simpl. repeat split. lia.
  - destruct (failed_or_cancelled (job_status j)).
    { do 3 eexists. split; [reflexivity|]. simpl. repeat split. lia. }
    destruct (String.eqb (job_status j) "Succeeded").
    2:{ do 3 eexists. split; [reflexivity|]. simpl. repeat split. lia. }
    destruct (download_results_shape client output_file (outputs j)
                (log [EvPrint (downloading_message (algorithm self))]
                     (mkWorld r1 (trace w ++
                        [EvRequest (ReqJobsPage (algorithm_uuid self)
                                                image_uuid 1)]))))
      as (o & r2 & us & more & tail & E & _ & Htail).
    rewrite E. simpl trace.
    assert (Hplain : Forall (fun ev => is_download_event ev = true)
                            (map fetch us ++ tail)).
    { apply download_events_plain with (filename := output_file).
      destruct Htail as [-> | [(url & e & -> & _) | (url & c & -> & _)]];
        [now left | right; left; now exists url
         | right; right; now exists url, c]. }
    destruct (download_events_quiet _ Hplain) as (Q1 & Q2 & Q3 & Q4).
    assert (Hw : (length (writes (map fetch us ++ tail)) <= 1)%nat).
    { rewrite writes_app, writes_fetches.
      destruct Htail as [-> | [(url & e & -> & _) | (url & c & -> & _)]];
        simpl; lia. }
    exists (match o with Return _ => Return (Break tt) | Raise e => Raise e end),
      r2,
      ([EvRequest (ReqJobsPage (algorithm_uuid self) image_uuid 1);
        EvPrint (downloading_message (algorithm self))]
         ++ map fetch us ++ tail).
    split; [destruct o; rewrite <- !app_assoc; reflexivity|].
    rewrite slots_app, sleeps_app, requests_app, writes_app, !filter_app.
    rewrite Q1, Q2, Q3, Q4. simpl. repeat split; try assumption.
    intros Hc. destruct o; discriminate Hc.
  - destruct (is_IOError e || is_IndexError e)%bool;
      do 3 eexists; (split; [reflexivity|]); simpl; repeat split; lia.
Qed.

End Rounds.

Lemma prefix_length (n : Z) (handed rest : list Z) :
  range n = handed ++ rest -> (length handed <= Z.to_nat n)%nat.
Proof.
  intros H. apply (f_equal (@length Z)) in H. unfold range in H.
  rewrite length_map, length_seq, length_app in H. lia.
Qed.

(** What the import loop does at most, however it ends. *)
Lemma import_loop_summary {R} (client : Client R)
    (self : GrandChallengeAlgorithm) (s : session) (w : World R) :
  exists o r' evs rest,
    wait_for_import client self s w = (o, mkWorld r' (trace w ++ evs)) /\
    range (attempts (retries self)) = slots evs ++ rest /\
    (length (slots evs) <= Z.to_nat (attempts (retries self)))%nat /\
    length (session_polls evs) = length (slots evs) /\
    job_polls evs = [] /\
    sleeps evs
    = map (fun n => Qmin (interval (retries self) * (3 # 2) ^ n) 300)
          (tl (slots evs)) /\
    Forall (fun q => (q <= 300)%Q) (sleeps evs) /\
    writes evs = [].
Proof.
  unfold wait_for_import, for_else, __iter__. cbn [gi_self gi_range].
  destruct (for_loop_budget (retries self) is_session_poll is_job_poll 0
              (import_body client self s) (raise TimeoutError))
    with (pending := range (attempts (retries self))) (w := w)
    as (o & r' & evs & handed & rest & E & Hpre & Hs & Hz & Hp & Ho & Hw).
  - intros n w0.
    destruct (import_body_round client self s n w0)
      as (o & r' & evs & E & [-> | [url ->]]);
      exists o, r'; eexists; (split; [exact E|]); simpl; repeat split; lia.
  - intros w0. eexists. reflexivity.
  - exists o, r', evs, rest. subst handed.
    rewrite (filter_positive_prefix _ _ _ Hpre) in Hz.
    split; [exact E|]. split; [exact Hpre|].
    split; [exact (prefix_length _ _ _ Hpre)|].
    split; [exact Hp|]. split; [exact Ho|]. split; [exact Hz|].
    split; [rewrite Hz; apply Forall_backoff_cap|].
    destruct (writes evs); [reflexivity|simpl in Hw; lia].
Qed.

(** What the job loop does at most, however it ends. *)
Lemma job_loop_summary {R} (client : Client R)
    (self : GrandChallengeAlgorithm) (image_uuid output_file : string)
    (w : World R) :
  exists o r' evs rest,
    wait_for_job client self image_uuid output_file w
    = (o, mkWorld r' (trace w ++ evs)) /\
    range (attempts (retries self)) = slots evs ++ rest /\
    (length (slots evs) <= Z.to_nat (attempts (retries self)))%nat /\
    length (job_polls evs) = length (slots evs) /\
    session_polls evs = [] /\
    sleeps evs
    = map (fun n => Qmin (interval (retries self) * (3 # 2) ^ n) 300)
          (tl (slots evs)) /\
    Forall (fun q => (q <= 300)%Q) (sleeps evs) /\
    (length (writes evs) <= 1)%nat.
Proof.
  unfold wait_for_job, for_else, __iter__. cbn [gi_self gi_range].
  destruct (for_loop_budget (retries self) is_job_poll is_session_poll 1
              (job_body client self image_uuid output_file)
              (raise TimeoutError))
    with (pending := range (attempts (retries self))) (w := w)
    as (o & r' & evs & handed & rest & E & Hpre & Hs & Hz & Hp & Ho & Hw).
  - intros n w0. apply job_body_round.
  - intros w0. eexists. reflexivity.
  - exists o, r', evs, rest. subst handed.
    rewrite (filter_positive_prefix _ _ _ Hpre) in Hz.
    split; [exact E|]. split; [exact Hpre|].
    split; [exact (prefix_length _ _ _ Hpre)|].
    split; [exact Hp|]. split; [exact Ho|]. split; [exact Hz|].
    split; [rewrite Hz; apply Forall_backoff_cap|exact Hw].
Qed.

(** X4. Whatever the service answers and however the import loop ends, it
    hands out a first part of the indices 0, ..., N-1 of the driver's
    policy, so at most N; it polls the session exactly once an index and
    never asks for a job; before every index but the first it sleeps the
    policy's back-off, at most 300 seconds, and it does not sleep
    otherwise; it writes nothing. *)
Theorem import_loop_budget {R} (client : Client R)
    (self : GrandChallengeAlgorithm) (s : session) (w : World R) :
  exists o r' evs rest,
    wait_for_import client self s w = (o, mkWorld r' (trace w ++ evs)) /\
    range (attempts (retries self)) = slots evs ++ rest /\
    (length (slots evs) <= Z.to_nat (attempts (retries self)))%nat /\
    length (session_polls evs) = length (slots evs) /\
    job_polls evs = [] /\
    sleeps evs
    = map (fun n => Qmin (interval (retries self) * (3 # 2) ^ n) 300)
          (tl (slots evs)) /\
    Forall (fun q => (q <= 300)%Q) (sleeps evs) /\
    writes evs = [].
Proof. exact (import_loop_summary client self s w). Qed.

(** X5. Whatever the service answers and however the job loop ends, it
    hands out a first part of the indices 0, ..., N-1 of the driver's
    policy, polls for the job exactly once an index and never polls the
    session, sleeps only the back-off before every index but the first, at
    most 300 seconds each time, and writes at most once. *)
Theorem job_loop_budget {R} (client : Client R)
    (self : GrandChallengeAlgorithm) (image_uuid output_file : string)
    (w : World R) :
  exists o r' evs rest,
    wait_for_job client self image_uuid output_file w
    = (o, mkWorld r' (trace w ++ evs)) /\
    range (attempts (retries self)) = slots evs ++ rest /\
    (length (slots evs) <= Z.to_nat (attempts (retries self)))%nat /\
    length (job_polls evs) = length (slots evs) /\
    session_polls evs = [] /\
    sleeps evs
    = map (fun n => Qmin (interval (retries self) * (3 # 2) ^ n) 300)
          (tl (slots evs)) /\
    Forall (fun q => (q <= 300)%Q) (sleeps evs) /\
    (length (writes evs) <= 1)%nat.
Proof. exact (job_loop_summary client self image_uuid output_file w). Qed.

(** One round of the job loop, seen from the loop. *)
Lemma job_round {R} (client : Client R) (self : GrandChallengeAlgorithm)
    (image_uuid output_file : string) (n : Z) (rest : list Z) (w : World R) :
  for_loop (retries self) (n :: rest)
           (job_body client self image_uuid output_file)
           (raise TimeoutError) w =
  match job_body client self image_uuid output_file n
          (log (round_events (retries self) n) w) with
  | (Return (Break a), w') => (Return a, w')
  | (Return Continue, w') =>
      for_loop (retries self) rest
               (job_body client self image_uuid output_file)
               (raise TimeoutError) w'
  | (Raise e, w') => (Raise e, w')
  end.
Proof. apply for_loop_cons. Qed.

(** X6. A poll that raises: in the import loop an I/O error (an instance
    of OSError) only costs the round, the loop goes on with the next index,
    and any other exception leaves the loop at once; in the job loop the
    same holds with IndexError treated like an I/O error, and a page
    without any job only costs the round as well. *)
Theorem poll_exception_handling {R} (client : Client R)
    (self : GrandChallengeAlgorithm) :
  (forall s n rest (w : World R) e r1,
      session_detail client (session_pk s) (remote w) = (Raise e, r1) ->
      let w1 :=
        mkWorld r1 (trace w ++ round_events (retries self) n ++
                    [EvRequest (ReqSessionDetail (session_pk s))]) in
      for_loop (retries self) (n :: rest) (import_body client self s)
               (raise TimeoutError) w =
      if is_IOError e
      then for_loop (retries self) rest (import_body client self s)
                    (raise TimeoutError) w1
      else (Raise e, w1)) /\
  (forall image_uuid output_file n rest (w : World R) e r1,
      jobs_page client (algorithm_uuid self) image_uuid 1 (remote w)
      = (Raise e, r1) ->
      let w1 :=
        mkWorld r1 (trace w ++ round_events (retries self) n ++
                    [EvRequest (ReqJobsPage (algorithm_uuid self)
                                            image_uuid 1)]) in
      for_loop (retries self) (n :: rest)
               (job_body client self image_uuid output_file)
               (raise TimeoutError) w =
      if (is_IOError e || is_IndexError e)%bool
      then for_loop (retries self) rest
                    (job_body client self image_uuid output_file)
                    (raise TimeoutError) w1
      else (Raise e, w1)) /\
  (forall image_uuid output_file n rest (w : World R) r1,
      jobs_page client (algorithm_uuid self) image_uuid 1 (remote w)
      = (Return [], r1) ->
      for_loop (retries self) (n :: rest)
               (job_body client self image_uuid output_file)
               (raise TimeoutError) w =
      for_loop (retries self) rest
               (job_body client self image_uuid output_file)
               (raise TimeoutError)
               (mkWorld r1 (trace w ++ round_events (retries self) n ++
                            [EvRequest (ReqJobsPage (algorithm_uuid self)
                                                    image_uuid 1)]))).
Proof.
  split; [|split].
  - intros s n rest w e r1 H w1. rewrite for_loop_cons.
    rewrite (import_body_raise client self s n
               (log (round_events (retries self) n) w) e r1 H).
    cbv zeta. unfold w1. simpl trace. rewrite <- app_assoc.
    destruct (is_IOError e); reflexivity.
  - intros image_uuid output_file n rest w e r1 H w1.
    rewrite job_round, job_body_eq. simpl remote. rewrite H. cbv zeta.
    unfold w1. simpl trace. rewrite <- app_assoc.
    destruct (is_IOError e || is_IndexError e)%bool; reflexivity.
  - intros image_uuid output_file n rest w r1 H.
    rewrite job_round, job_body_eq. simpl remote. rewrite H. cbv zeta.
    simpl trace. now rewrite <- app_assoc.
Qed.

(** A KeyError from the first session poll ends the import loop with that
    KeyError after the one poll. *)
Lemma poll_exception_handling_witness :
  wait_for_import broken sample_driver sample_session start
  = (Raise KeyError,
     mkWorld tt [EvYield 0; EvRequest (ReqSessionDetail "upload-1")]).
Proof.
  exact (proj1 (poll_exception_handling broken sample_driver)
               sample_session 0 (map Z.of_nat (seq 1 24)) start KeyError tt
               eq_refl).
Defined.

(** X7. When a session poll reports "Succeeded" and the look-up of its
    first image reference raises: an IndexError becomes the RuntimeError
    "Uploaded image could not be imported, not a valid image?", an I/O
    error only costs the round (the loop polls again with the next index),
    and any other exception leaves the loop at once. *)
Theorem import_lookup_failure {R} (client : Client R)
    (self : GrandChallengeAlgorithm) (s : session) (n : Z) (rest : list Z)
    (w : World R) d r1 url more e r2 :
  session_detail client (session_pk s) (remote w) = (Return d, r1) ->
  session_status d = "Succeeded" ->
  image_set d = url :: more ->
  get_image client url r1 = (Raise e, r2) ->
  let w2 :=
    mkWorld r2 (trace w ++ round_events (retries self) n ++
                [EvRequest (ReqSessionDetail (session_pk s)); fetch url]) in
  for_loop (retries self) (n :: rest) (import_body client self s)
           (raise TimeoutError) w =
  if is_IndexError e then
    (Raise (RuntimeError
              "Uploaded image could not be imported, not a valid image?"),
     w2)
  else if is_IOError e then
    for_loop (retries self) rest (import_body client self s)
             (raise TimeoutError) w2
  else (Raise e, w2).
Proof.
  intros H Hs Hi Hg w2. rewrite for_loop_cons.
  rewrite (import_body_lookup_raise client self s n
             (log (round_events (retries self) n) w) d r1 url more e r2
             H Hs Hi Hg).
  unfold w2. simpl trace. rewrite <- app_assoc.
  destruct (is_IndexError e); [reflexivity|].
  destruct (is_IOError e); reflexivity.
Qed.

(** The last round of an import loop against a service that reports the
    import but serves no document: the I/O error of the look-up is
    absorbed and the loop ends through its else suite. *)
Lemma import_lookup_failure_witness :
  for_loop (retries sample_driver) [24]
           (import_body offline sample_driver sample_session)
           (raise TimeoutError) start
  = (Raise TimeoutError,
     mkWorld tt [EvSleep (backoff (retries sample_driver) 24); EvYield 24;
                 EvRequest (ReqSessionDetail "upload-1");
                 fetch "image-url"]).
Proof.
  exact (import_lookup_failure offline sample_driver sample_session 24 []
           start (mkSessionDetails "Succeeded" ["image-url"]) tt
           "image-url" [] IOError tt eq_refl eq_refl eq_refl eq_refl).
Defined.

(* ================================================================== *)
(** * Further properties: how the job phase ends *)

(** X8. When a job poll lists a job whose status is "Failed" or
    "Cancelled", the job loop ends in that round with the RuntimeError
    whose message is [Algorithm "<name>" failed], the name between double
    quotes (character 34): nothing is done after the poll, the job's outputs
    are not looked at and no later index is handed out. *)
Theorem job_rejected {R} (client : Client R)
    (self : GrandChallengeAlgorithm) (image_uuid output_file : string)
    (n : Z) (rest : list Z) (w : World R) j more r1 :
  jobs_page client (algorithm_uuid self) image_uuid 1 (remote w)
  = (Return (j :: more), r1) ->
  job_status j = "Failed" \/ job_status j = "Cancelled" ->
  for_loop (retries self) (n :: rest)
           (job_body client self image_uuid output_file)
           (raise TimeoutError) w =
  (Raise (RuntimeError
            ("Algorithm "
               ++ String "034" (algorithm self ++ String "034" " failed"))),
   mkWorld r1 (trace w ++ round_events (retries self) n ++
               [EvRequest (ReqJobsPage (algorithm_uuid self) image_uuid 1)])).
Proof.
  intros H Hs. rewrite job_round, job_body_eq. simpl remote. rewrite H.
  cbv zeta. simpl trace. rewrite <- app_assoc, <- failed_message_eq.
  destruct Hs as [-> | ->]; reflexivity.
Qed.

(** A job reported as "Failed" at the first poll. *)
Lemma job_rejected_witness :
  for_loop (retries sample_driver) [0]
           (job_body (finished "Failed" []) sample_driver "image-1"
                     "out/mask.mha")
           (raise TimeoutError) start
  = (Raise (RuntimeError
              ("Algorithm " ++ String "034" ("lungs" ++ String "034" " failed"))),
     mkWorld tt [EvYield 0; EvRequest (ReqJobsPage "alg-1" "image-1" 1)]).
Proof.
  exact (job_rejected (finished "Failed" []) sample_driver "image-1"
           "out/mask.mha" 0 [] start (mkJob "Failed" []) [] tt eq_refl
           (or_introl eq_refl)).
Defined.

(** X9. When a job poll lists a "Succeeded" job and fetching the image
    document of its first output that has an image raises, whatever the
    exception, an I/O error included, the job loop ends with that
    exception: unlike a failing poll, a failing download is not retried. *)
Theorem job_download_error_not_retried {R} (client : Client R)
    (self : GrandChallengeAlgorithm) (image_uuid output_file : string)
    (n : Z) (rest : list Z) (w : World R) j more r1 url outs e r2 :
  jobs_page client (algorithm_uuid self) image_uuid 1 (remote w)
  = (Return (j :: more), r1) ->
  job_status j = "Succeeded" ->
  outputs j = mkOutput (Some url) :: outs ->
  get_image client url r1 = (Raise e, r2) ->
  for_loop (retries self) (n :: rest)
           (job_body client self image_uuid output_file)
           (raise TimeoutError) w =
  (Raise e,
   mkWorld r2 (trace w ++ round_events (retries self) n ++
               [EvRequest (ReqJobsPage (algorithm_uuid self) image_uuid 1);
                EvPrint ("Downloading results of algorithm "
                         ++ quoted (algorithm self));
                fetch url])).
Proof.
  intros H Hs Ho Hg. rewrite job_round, job_body_eq. simpl remote.
  rewrite H. cbv zeta. rewrite Hs. cbn [failed_or_cancelled String.eqb].
  simpl (failed_or_cancelled "Succeeded"). cbv iota.
  rewrite Ho, download_results_cons. cbn [image]. simpl remote.
  rewrite Hg. simpl. now rewrite <- !app_assoc.
Qed.

(** The job has succeeded but the service serves no document. *)
Lemma job_download_error_not_retried_witness :
  for_loop (retries sample_driver) [0; 1]
           (job_body offline sample_driver "image-1" "out/mask.mha")
           (raise TimeoutError) start
  = (Raise IOError,
     mkWorld tt [EvYield 0; EvRequest (ReqJobsPage "alg-1" "image-1" 1);
                 EvPrint ("Downloading results of algorithm "
                          ++ quoted "lungs");
                 fetch "result-url"]).
Proof.
  exact (job_download_error_not_retried offline sample_driver "image-1"
           "out/mask.mha" 0 [1] start
           (mkJob "Succeeded" [mkOutput (Some "result-url")]) [] tt
           "result-url" [] IOError tt eq_refl eq_refl eq_refl eq_refl).
Defined.

(* ================================================================== *)
(** * Further properties: whole runs *)

Section Runs.
Context {R : Type} (client : Client R) (self : GrandChallengeAlgorithm).
Context (input_files : list string) (output_file : string).

(** After an import that succeeds at the first poll, [run] is its job
    loop. *)
Lemma run_after_import (w : World R) s url img r3 :
  1 <= attempts (retries self) ->
  imports_at_once client self input_files w s url img r3 ->
  run client self input_files output_file w =
  wait_for_job client self (image_pk img) output_file
    (mkWorld r3 (trace w ++ run_prelude self input_files s url)).
Proof.
  intros HN (r1 & d & r2 & more & Hu & H & Hs & Hi & Hg).
  destruct w as [r0 t]. simpl in Hu.
  rewrite run_eq. cbv zeta. rewrite Hu.
  rewrite (wait_for_import_first client self s (mkWorld r1 _) d r2 url more
             img r3 HN H Hs Hi Hg).
  unfold log, run_prelude, uploading_message, importing_message,
    waiting_message. simpl. now rewrite <- !app_assoc.
Qed.

(** The first round of the job loop. *)
Lemma wait_for_job_unfold (image_uuid : string) (w : World R) :
  1 <= attempts (retries self) ->
  exists rest,
    wait_for_job client self image_uuid output_file w =
    for_loop (retries self) (0 :: rest)
             (job_body client self image_uuid output_file)
             (raise TimeoutError) w.
Proof.
  intros HN. destruct (range_one _ HN) as [rest Hr]. exists rest.
  unfold wait_for_job, for_else, __iter__. cbn [gi_self gi_range].
  now rewrite Hr.
Qed.

(** The first job poll lists a "Succeeded" job: what is left of [run] is
    the download step. *)
Lemma run_job_succeeded (w : World R) s url img r3 j jobs r4 :
  1 <= attempts (retries self) ->
  imports_at_once client self input_files w s url img r3 ->
  jobs_page client (algorithm_uuid self) (image_pk img) 1 r3
  = (Return (j :: jobs), r4) ->
  job_status j = "Succeeded" ->
  run client self input_files output_file w =
  match _download_results client (outputs j) output_file
          (mkWorld r4 (trace w ++ run_prelude self input_files s url ++
                       [EvYield 0;
                        EvRequest (ReqJobsPage (algorithm_uuid self)
                                               (image_pk img) 1);
                        EvPrint (downloading_message (algorithm self))]))
  with
  | (Return _, w') => (Return tt, w')
  | (Raise e, w') => (Raise e, w')
  end.
Proof.
  intros HN Himp Hj Hs.
  rewrite (run_after_import w s url img r3 HN Himp).
  destruct (wait_for_job_unfold (image_pk img)
              (mkWorld r3 (trace w ++ run_prelude self input_files s url)) HN)
    as [rest ->].
  rewrite job_round, job_body_eq. simpl remote. rewrite Hj. cbv zeta.
  rewrite Hs. simpl (failed_or_cancelled "Succeeded"). cbv iota.
  simpl (String.eqb "Succeeded" "Succeeded"). cbv iota.
  unfold log. simpl trace. simpl remote.
  rewrite <- !app_assoc. simpl app.
  destruct (_download_results client (outputs j) output_file _)
    as [[u|e] w']; reflexivity.
Qed.

End Runs.

(** X10. If the upload is accepted, the import succeeds at the first poll
    and the first job poll lists a "Succeeded" job none of whose outputs
    yields an MHD file, [run] returns normally although it has written no
    file and touched no directory: all it did after the polls is fetch the
    image documents of the outputs. *)
Theorem run_without_mask {R} (client : Client R)
    (self : GrandChallengeAlgorithm) (input_files : list string)
    (output_file : string) (w : World R) s url img r3 j jobs r4 :
  1 <= attempts (retries self) ->
  imports_at_once client self input_files w s url img r3 ->
  jobs_page client (algorithm_uuid self) (image_pk img) 1 r3
  = (Return (j :: jobs), r4) ->
  job_status j = "Succeeded" ->
  Forall (barren client) (outputs j) ->
  exists r',
    let did :=
      run_prelude self input_files s url ++
      [EvYield 0;
       EvRequest (ReqJobsPage (algorithm_uuid self) (image_pk img) 1);
       EvPrint ("Downloading results of algorithm "
                ++ quoted (algorithm self))] ++
      map fetch (image_urls (outputs j)) in
    run client self input_files output_file w
    = (Return tt, mkWorld r' (trace w ++ did)) /\
    writes did = [] /\ mutations did = [].
Proof.
  intros HN Himp Hj Hs Hb.
  rewrite (run_job_succeeded client self input_files output_file w s url img
             r3 j jobs r4 HN Himp Hj Hs).
  destruct (download_results_skip client output_file (outputs j) [] Hb
              (mkWorld r4 (trace w ++ run_prelude self input_files s url ++
                 [EvYield 0;
                  EvRequest (ReqJobsPage (algorithm_uuid self)
                                         (image_pk img) 1);
                  EvPrint (downloading_message (algorithm self))])))
    as [r' E].
  rewrite app_nil_r in E. rewrite E. simpl.
  exists r'. split; [|split].
  - unfold downloading_message. now rewrite <- !app_assoc.
  - unfold run_prelude. simpl. apply writes_fetches.
  - unfold run_prelude. simpl. apply mutations_fetches.
Qed.

(** The job has succeeded with a single output that has no image. *)
Lemma run_without_mask_witness :
  exists w',
    run (finished "Succeeded" [mkOutput None]) sample_driver ["scan.mha"]
        "out/mask.mha" start
    = (Return tt, w') /\
    writes (trace w') = [].
Proof.
  assert (HN : 1 <= attempts (retries sample_driver)) by (simpl; lia).
  assert (Himp : imports_at_once (finished "Succeeded" [mkOutput None])
                   sample_driver ["scan.mha"] start sample_session
                   "image-url" sample_image tt).
  { exists tt, (mkSessionDetails "Succeeded" ["image-url"]), tt, [].
    repeat split. }
  assert (Hb : Forall (barren (finished "Succeeded" [mkOutput None]))
                      [mkOutput None]).
  { repeat constructor. intros u H. discriminate H. }
  destruct (run_without_mask (finished "Succeeded" [mkOutput None])
              sample_driver ["scan.mha"] "out/mask.mha" start
              sample_session "image-url" sample_image tt
              (mkJob "Succeeded" [mkOutput None]) [] tt
              HN Himp eq_refl eq_refl Hb)
    as (r' & E & Hw & _).
  eexists. split; [exact E|]. simpl trace. exact Hw.
Defined.

(** X11. The destination's extension is checked last.  If the upload is
    accepted, the import succeeds at the first poll, the first job poll
    lists a "Succeeded" job whose first output has an image with an MHD
    file, and the destination does not end in ".mha", then [run] has
    uploaded, waited the 30 seconds and the headstart, polled and fetched the
    image document before it raises the ValueError; it has touched no
    file. *)
Theorem run_wrong_extension {R} (client : Client R)
    (self : GrandChallengeAlgorithm) (input_files : list string)
    (output_file : string) (w : World R) s url img r3 j jobs r4
    out_url outs d r5 :
  1 <= attempts (retries self) ->
  imports_at_once client self input_files w s url img r3 ->
  jobs_page client (algorithm_uuid self) (image_pk img) 1 r3
  = (Return (j :: jobs), r4) ->
  job_status j = "Succeeded" ->
  outputs j = mkOutput (Some out_url) :: outs ->
  get_image client out_url r4 = (Return d, r5) ->
  existsb is_mhd (files d) = true ->
  Pathlib.suffix output_file <> ".mha" ->
  let did :=
    run_prelude self input_files s url ++
    [EvYield 0;
     EvRequest (ReqJobsPage (algorithm_uuid self) (image_pk img) 1);
     EvPrint ("Downloading results of algorithm "
              ++ quoted (algorithm self));
     fetch out_url] in
  run client self input_files output_file w
  = (Raise (ValueError "Output file needs to have .mha extension"),
     mkWorld r5 (trace w ++ did)) /\
  mutations did = [] /\
  sleeps did = [30%Q; inject_Z (headstart self)].
Proof.
  intros HN Himp Hj Hs Ho Hg Hm Hsuf did.
  split; [|split; reflexivity].
  rewrite (run_job_succeeded client self input_files output_file w s url img
             r3 j jobs r4 HN Himp Hj Hs).
  rewrite Ho, download_results_cons. cbn [image]. simpl remote.
  rewrite Hg. cbv zeta.
  rewrite (download_files_rejected client output_file _ _ Hsuf Hm).
  unfold did, downloading_message. simpl trace.
  now rewrite <- !app_assoc.
Qed.

(** The sample job with destination "result.png". *)
Lemma run_wrong_extension_witness :
  fst (run (finished "Succeeded" [mkOutput (Some "result-url")])
           sample_driver ["scan.mha"] "result.png" start)
  = Raise (ValueError "Output file needs to have .mha extension").
Proof.
  assert (Hsuf : Pathlib.suffix "result.png" <> ".mha")
    by (vm_compute; discriminate).
  assert (HN : 1 <= attempts (retries sample_driver)) by (simpl; lia).
  assert (Himp : imports_at_once
                   (finished "Succeeded" [mkOutput (Some "result-url")])
                   sample_driver ["scan.mha"] start sample_session
                   "image-url" sample_image tt).
  { exists tt, (mkSessionDetails "Succeeded" ["image-url"]), tt, [].
    repeat split. }
  destruct (run_wrong_extension
              (finished "Succeeded" [mkOutput (Some "result-url")])
              sample_driver ["scan.mha"] "result.png" start
              sample_session "image-url" sample_image tt
              (mkJob "Succeeded" [mkOutput (Some "result-url")]) [] tt
              "result-url" [] sample_image tt
              HN Himp eq_refl eq_refl eq_refl eq_refl eq_refl Hsuf)
    as (E & _).
  rewrite E. reflexivity.
Defined.

(** X12. A run without any retry.  If the upload is accepted, the import
    succeeds at the first poll, the first job poll lists a "Succeeded" job
    whose first output has an image with an MHD file, that file's content is
    served and the destination ends in ".mha", then [run] returns normally
    and has done exactly this, in this order: print, upload, print, sleep
    30 seconds, poll the session, resolve the image, print, sleep the
    headstart, poll for the job of this algorithm and this image with limit
    1, print, fetch the output's image document, make the parent directory,
    open the destination, fetch the content of the document's first MHD file
    and write it. *)
Theorem run_success {R} (client : Client R)
    (self : GrandChallengeAlgorithm) (input_files : list string)
    (output_file : string) (w : World R) s url img r3 j jobs r4
    out_url outs d r5 pre f post c r6 :
  1 <= attempts (retries self) ->
  imports_at_once client self input_files w s url img r3 ->
  jobs_page client (algorithm_uuid self) (image_pk img) 1 r3
  = (Return (j :: jobs), r4) ->
  job_status j = "Succeeded" ->
  outputs j = mkOutput (Some out_url) :: outs ->
  get_image client out_url r4 = (Return d, r5) ->
  files d = pre ++ f :: post ->
  existsb is_mhd pre = false ->
  image_type f = "MHD" ->
  get_content client (file f) r5 = (Return c, r6) ->
  Pathlib.suffix output_file = ".mha" ->
  let did :=
    [EvPrint ("Uploading to grand-challenge.org to run "
              ++ quoted (algorithm self));
     EvRequest (ReqUploadCases input_files (algorithm self));
     EvPrint ("Waiting for image import to finish for algorithm "
              ++ quoted (algorithm self));
     EvSleep 30;
     EvYield 0;
     EvRequest (ReqSessionDetail (session_pk s));
     fetch url;
     EvPrint ("Waiting for results of algorithm " ++ quoted (algorithm self));
     EvSleep (inject_Z (headstart self));
     EvYield 0;
     EvRequest (ReqJobsPage (algorithm_uuid self) (image_pk img) 1);
     EvPrint ("Downloading results of algorithm "
              ++ quoted (algorithm self));
     fetch out_url;
     EvMkdir (Pathlib.parent output_file);
     EvOpen output_file;
     fetch (file f);
     EvWrite output_file c] in
  run client self input_files output_file w
  = (Return tt, mkWorld r6 (trace w ++ did)).
Proof.
  intros HN Himp Hj Hs Ho Hg Hfs Hpre Hf Hc Hsuf did.
  rewrite (run_job_succeeded client self input_files output_file w s url img
             r3 j jobs r4 HN Himp Hj Hs).
  rewrite Ho.
  rewrite (download_results_hit client output_file out_url outs
             (mkWorld r4 _) d r5 pre f post c r6 Hsuf Hg Hfs Hpre);
    [|unfold is_mhd; now rewrite Hf|exact Hc].
  unfold did, run_prelude, uploading_message, importing_message,
    waiting_message, downloading_message. simpl trace.
  now rewrite <- !app_assoc.
Qed.

(** The sample service with a finished job. *)
Lemma run_success_witness :
  exists w',
    run (finished "Succeeded" [mkOutput (Some "result-url")])
        sample_driver ["scan.mha"] "out/mask.mha" start
    = (Return tt, w') /\
    writes (trace w') = [("out/mask.mha", sample_mask)].
Proof.
  assert (HN : 1 <= attempts (retries sample_driver)) by (simpl; lia).
  assert (Himp : imports_at_once
                   (finished "Succeeded" [mkOutput (Some "result-url")])
                   sample_driver ["scan.mha"] start sample_session
                   "image-url" sample_image tt).
  { exists tt, (mkSessionDetails "Succeeded" ["image-url"]), tt, [].
    repeat split. }
  eexists. split.
  - exact (run_success
             (finished "Succeeded" [mkOutput (Some "result-url")])
             sample_driver ["scan.mha"] "out/mask.mha" start
             sample_session "image-url" sample_image tt
             (mkJob "Succeeded" [mkOutput (Some "result-url")]) [] tt
             "result-url" [] sample_image tt
             [mkFile "JPEG" "thumb-url"] (mkFile "MHD" "mask-url") []
             sample_mask tt
             HN Himp eq_refl eq_refl eq_refl eq_refl eq_refl eq_refl
             eq_refl eq_refl eq_refl).
  - reflexivity.
Defined.

(** X13. A failing upload ends [run] at once with the exception the client
    raised, an I/O error included: after the first message and the upload
    call nothing is done, no wait and no poll. *)
Theorem run_upload_failure {R} (client : Client R)
    (self : GrandChallengeAlgorithm) (input_files : list string)
    (output_file : string) (w : World R) e r1 :
  upload_cases client input_files (algorithm self) (remote w)
  = (Raise e, r1) ->
  run client self input_files output_file w =
  (Raise e,
   mkWorld r1 (trace w ++
               [EvPrint ("Uploading to grand-challenge.org to run "
                         ++ quoted (algorithm self));
                EvRequest (ReqUploadCases input_files (algorithm self))])).
Proof.
  intros H. destruct w as [r0 t]. simpl in H.
  rewrite run_eq. cbv zeta. now rewrite H.
Qed.

(** The service refuses the upload with an I/O error. *)
Lemma run_upload_failure_witness :
  run refusing sample_driver ["scan.mha"] "out/mask.mha" start
  = (Raise IOError,
     mkWorld tt [EvPrint ("Uploading to grand-challenge.org to run "
                          ++ quoted "lungs");
                 EvRequest (ReqUploadCases ["scan.mha"] "lungs")]).
Proof.
  exact (run_upload_failure refusing sample_driver ["scan.mha"]
           "out/mask.mha" start IOError tt eq_refl).
Defined.

(** X14. Whatever the service does and however [run] ends: it starts with
    its first message and the upload call; it polls the session at most N
    times and asks for the job at most N times, N being the attempts of
    the driver's policy; every sleep is the headstart or lasts at most 300
    seconds; and it writes at most once. *)
Theorem run_budget {R} (client : Client R) (self : GrandChallengeAlgorithm)
    (input_files : list string) (output_file : string) (w : World R) :
  exists o r' evs,
    run client self input_files output_file w
    = (o, mkWorld r' (trace w ++
                      EvPrint ("Uploading to grand-challenge.org to run "
                               ++ quoted (algorithm self)) ::
                      EvRequest (ReqUploadCases input_files (algorithm self))
                      :: evs)) /\
    (length (session_polls evs) <= Z.to_nat (attempts (retries self)))%nat /\
    (length (job_polls evs) <= Z.to_nat (attempts (retries self)))%nat /\
    Forall (fun q => (q <= 300)%Q \/ q = inject_Z (headstart self))
           (sleeps evs) /\
    (length (writes evs) <= 1)%nat.
Proof.
  destruct w as [r0 t]. rewrite run_eq. cbv zeta. simpl trace.
  destruct (upload_cases client input_files (algorithm self) r0)
    as [[s|e] r1].
  2:{ exists (Raise e), r1, []. simpl. repeat split; try lia. constructor. }
  match goal with
  | |- context [wait_for_import client self s ?w1] =>
      destruct (import_loop_summary client self s w1)
        as (o1 & r2 & evs1 & rest1 & E1 & _ & L1 & P1 & J1 & _ & F1 & W1);
      rewrite E1
  end.
  simpl trace.
  assert (F1' : Forall (fun q => (q <= 300)%Q \/ q = inject_Z (headstart self))
                       (sleeps evs1)).
  { eapply Forall_impl; [|exact F1]. intros q Hq. now left. }
  unfold session_polls, job_polls in *.
  destruct o1 as [u|e].
  - match goal with
    | |- context [wait_for_job client self u output_file ?w2] =>
        destruct (job_loop_summary client self u output_file w2)
          as (o2 & r3 & evs2 & rest2 & E2 & _ & L2 & P2 & S2 & _ & F2 & W2);
        rewrite E2
    end.
    unfold session_polls, job_polls in *. simpl trace.
    exists o2, r3.
    exists ([EvPrint ("Waiting for image import to finish for algorithm "
                      ++ quoted (algorithm self)); EvSleep 30]
              ++ evs1
              ++ [EvPrint ("Waiting for results of algorithm "
                           ++ quoted (algorithm self));
                  EvSleep (inject_Z (headstart self))]
              ++ evs2).
    split; [simpl; rewrite <- !app_assoc; reflexivity|].
    rewrite ?requests_app, ?filter_app, ?length_app, ?sleeps_app, ?writes_app.
    rewrite J1, S2, W1. simpl. rewrite P1, P2.
    split; [lia|]. split; [lia|]. split; [|lia].
    constructor; [left; discriminate|].
    apply Forall_app. split; [exact F1'|].
    constructor; [now right|].
    eapply Forall_impl; [|exact F2]. intros q Hq. now left.
  - exists (Raise e), r2.
    exists ([EvPrint ("Waiting for image import to finish for algorithm "
                      ++ quoted (algorithm self)); EvSleep 30] ++ evs1).
    split; [simpl; rewrite <- !app_assoc; reflexivity|].
    rewrite ?requests_app, ?filter_app, ?length_app, ?sleeps_app, ?writes_app.
    rewrite J1, W1. simpl. rewrite P1.
    split; [lia|]. split; [lia|]. split; [|lia].
    constructor; [left; discriminate|exact F1'].
Qed.

(* ================================================================== *)
(** * Further properties: construction *)

(** X15. When the look-up of the algorithm answers with an empty result
    list, or with a document that has no "results" key, the constructor
    raises ValueError "Invalid algorithm name"; it has made the one look-up
    call and nothing else. *)
Theorem init_rejects_unknown_algorithm {R} (client : Client R)
    (api_token name : string) (w : World R) r' :
  algorithms client name (remote w) = (Return (Some []), r') \/
  algorithms client name (remote w) = (Return None, r') ->
  __init__ client api_token name w =
  (Raise (ValueError "Invalid algorithm name"),
   mkWorld r' (trace w ++ [EvRequest (ReqAlgorithms name)])).
Proof.
  intros [H | H]; rewrite init_eq, H; reflexivity.
Qed.

(** The service knows no algorithm of that name. *)
Lemma init_rejects_unknown_algorithm_witness :
  __init__ unknown_algorithm "token" "lungs" start =
  (Raise (ValueError "Invalid algorithm name"),
   mkWorld tt [EvRequest (ReqAlgorithms "lungs")]).
Proof.
  exact (init_rejects_unknown_algorithm unknown_algorithm "token" "lungs"
           start tt (or_introl eq_refl)).
Defined.



(* ================================================================== *)
(** * Further properties: a download that breaks off *)

(** X17. When the mask has been found and the destination ends in ".mha"
    but fetching the mask's content raises, the download step ends with
    that exception after it has made the parent directory and opened the
    destination for writing: the destination is left opened and unwritten,
    and the outputs that follow are not tried. *)
Theorem download_content_failure {R} (client : Client R)
    (filename url : string) (rest : list output) (w : World R)
    d r1 pre f post e r2 :
  Pathlib.suffix filename = ".mha" ->
  get_image client url (remote w) = (Return d, r1) ->
  files d = pre ++ f :: post ->
  existsb is_mhd pre = false ->
  image_type f = "MHD" ->
  get_content client (file f) r1 = (Raise e, r2) ->
  let did := [fetch url; EvMkdir (Pathlib.parent filename); EvOpen filename;
              fetch (file f)] in
  _download_results client (mkOutput (Some url) :: rest) filename w
  = (Raise e, mkWorld r2 (trace w ++ did)) /\
  mutations did = [EvMkdir (Pathlib.parent filename); EvOpen filename] /\
  writes did = [].
Proof.
  intros Hsuf Hg Hfs Hpre Hf Hc did. split; [|split; reflexivity].
  rewrite download_results_cons. cbn [image]. rewrite Hg. cbv zeta.
  rewrite Hfs.
  rewrite (download_files_hit client filename pre post f _ Hsuf Hpre);
    [|unfold is_mhd; now rewrite Hf].
  simpl remote. rewrite Hc. unfold opening, did. simpl trace.
  now rewrite <- app_assoc.
Qed.

(** The service serves the image document but not the content. *)
Lemma download_content_failure_witness :
  _download_results truncating
    [mkOutput (Some "image-url"); mkOutput (Some "other-url")]
    "out/mask.mha" start
  = (Raise IOError,
     mkWorld tt [fetch "image-url"; EvMkdir "out"; EvOpen "out/mask.mha";
                 fetch "mask-url"]).
Proof.
  exact (proj1 (download_content_failure truncating "out/mask.mha"
                  "image-url" [mkOutput (Some "other-url")] start
                  sample_image tt [mkFile "JPEG" "thumb-url"]
                  (mkFile "MHD" "mask-url") [] IOError tt
                  eq_refl eq_refl eq_refl eq_refl eq_refl eq_refl)).
Defined.

(* ================================================================== *)
(** * Further properties: the back-off schedule in doubles *)

(** Line 16 at one index: one sleep of 0 to 300 seconds, or an exception
    before any sleep. *)
Lemma pause_cases {R} (self : ThrottledRetries) (n : Z) (w : World R) :
  (exists q, pause self n w = (Return tt, log [EvSleep q] w) /\
             (0 <= q <= 300)%Q) \/
  pause self n w = (Raise OverflowError, w) \/
  pause self n w
  = (Raise (ValueError "sleep length must be non-negative"), w).
Proof.
  unfold pause, bind, lift, float_pow, float_of.
  destruct (Double.overflows ((3 # 2) ^ n)); [right; left; reflexivity|].
  destruct (Double.overflows (interval self)); [right; left; reflexivity|].
  cbv beta iota. unfold float_mul.
  set (x := (Double.nearest (interval self)
             * Double.nearest ((3 # 2) ^ n))%Q).
  destruct (Double.overflows x).
  - destruct (Qle_bool 0 x); cbn [negb min_300 time_sleep].
    + left. exists 300%Q. split; [reflexivity|]. split; discriminate.
    + right; right; reflexivity.
  - cbn [min_300 time_sleep].
    destruct (Qle_bool 0 (Qmin (Double.nearest x) 300)) eqn:E.
    + left. eexists. split; [reflexivity|].
      split; [now apply Qle_bool_iff|apply Q.le_min_r].
    + right; right; reflexivity.
Qed.

(** A pass in doubles over any indices, however it ends. *)
Lemma pass_float_summary {R} (self : ThrottledRetries) (pending : list Z)
    (w : World R) :
  exists o evs handed rest,
    pass_float self pending w = (o, log evs w) /\
    pending = handed ++ rest /\
    slots evs = handed /\
    length (sleeps evs) = length (filter (fun n => 0 <? n) handed) /\
    Forall (fun q => (0 <= q <= 300)%Q) (sleeps evs) /\
    (o = Return tt -> rest = []) /\
    (forall e, o = Raise e ->
       e = OverflowError \/
       e = ValueError "sleep length must be non-negative").
Proof.
  revert w. induction pending as [|n l IH]; intros w.
  - exists (Return tt), [], [], []. cbn [pass_float]. unfold ret.
    rewrite log_nil.
    split; [reflexivity|]. split; [reflexivity|]. split; [reflexivity|].
    split; [reflexivity|]. split; [constructor|].
    split; [reflexivity|discriminate].
  - cbn [pass_float]. destruct (0 <? n) eqn:E.
    + destruct (pause_cases self n w) as [(q & Hp & Hq) | [Hp | Hp]].
      * unfold bind at 1. rewrite Hp. unfold bind at 1. unfold emit at 1.
        destruct (IH (log [EvYield n] (log [EvSleep q] w)))
          as (o & evs & handed & rest & E1 & -> & <- & Hl & Hf & Hr & He).
        rewrite E1. exists o, (EvSleep q :: EvYield n :: evs),
                      (n :: slots evs), rest.
        split; [now rewrite !log_app|]. split; [reflexivity|].
        split; [reflexivity|]. cbn [sleeps filter length]. rewrite E.
        cbn [length]. split; [now rewrite Hl|].
        split; [now constructor|]. split; assumption.
      * unfold bind at 1. rewrite Hp.
        exists (Raise OverflowError), [], [], (n :: l). rewrite log_nil.
        split; [reflexivity|]. split; [reflexivity|]. split; [reflexivity|].
        split; [reflexivity|]. split; [constructor|].
        split; [discriminate|]. intros e H. injection H as <-. now left.
      * unfold bind at 1. rewrite Hp.
        exists (Raise (ValueError "sleep length must be non-negative")),
          [], [], (n :: l). rewrite log_nil.
        split; [reflexivity|]. split; [reflexivity|]. split; [reflexivity|].
        split; [reflexivity|]. split; [constructor|].
        split; [discriminate|]. intros e H. injection H as <-. now right.
    + unfold bind at 1. unfold ret at 1. unfold bind at 1. unfold emit at 1.
      destruct (IH (log [EvYield n] w))
        as (o & evs & handed & rest & E1 & -> & <- & Hl & Hf & Hr & He).
      rewrite E1. exists o, (EvYield n :: evs), (n :: slots evs), rest.
      split; [now rewrite !log_app|]. split; [reflexivity|].
      split; [reflexivity|]. cbn [sleeps filter length]. rewrite E.
      split; [exact Hl|]. split; [exact Hf|]. split; assumption.
Qed.

Lemma Forall_upper (l : list Q) :
  Forall (fun q => (0 <= q <= 300)%Q) l -> Forall (fun q => (q <= 300)%Q) l.
Proof. apply Forall_impl. intros q H. apply H. Qed.

(** X1. Line 16 of the iterator (the power, the product, the minimum and
    the sleep, all in doubles) at one index [n], for every policy: either
    it sleeps exactly once, between 0 and 300 seconds, or it raises
    OverflowError or ValueError without having slept.  From index 1751 on
    it always raises OverflowError, since 1.5 ** n is beyond the doubles.
    Up to index 1750, with an interval that is not negative and that fits
    a double, it always sleeps, [delay self n] seconds. *)
Theorem pause_bounds {R} (self : ThrottledRetries) (n : Z) (w : World R) :
  ((exists q, pause self n w = (Return tt, log [EvSleep q] w) /\
              (0 <= q <= 300)%Q) \/
   pause self n w = (Raise OverflowError, w) \/
   pause self n w
   = (Raise (ValueError "sleep length must be non-negative"), w)) /\
  (1751 <= n -> pause self n w = (Raise OverflowError, w)) /\
  (n <= 1750 ->
   (0 <= interval self)%Q ->
   Double.overflows (interval self) = false ->
   pause self n w = (Return tt, log [EvSleep (delay self n)] w)).
Proof.
  split; [apply pause_cases|]. split.
  - apply pause_overflow.
  - intros Hn HI Hfit. now apply pause_sleeps.
Qed.

(** 15 seconds at index 3 sleeps 50.625 seconds; index 1751 raises. *)
Lemma pause_bounds_witness :
  pause (mkThrottledRetries 25 15) 3 start
  = (Return tt, mkWorld tt [EvSleep (405 # 8)]) /\
  pause (mkThrottledRetries 25 15) 1751 start = (Raise OverflowError, start).
Proof.
  split.
  - etransitivity.
    + apply (proj2 (proj2 (pause_bounds (mkThrottledRetries 25 15) 3 start)));
        [lia|discriminate|reflexivity].
    + vm_compute. reflexivity.
  - apply (proj1 (proj2 (pause_bounds (mkThrottledRetries 25 15) 1751
                           start))).
    lia.
Defined.

(** X2. One pass over a policy with N attempts, in doubles and for every
    policy, however the pass ends: the indices handed out are a first part
    of 0, ..., N-1, at most max(N, 0) of them; there is exactly one sleep
    fewer than indices handed out (none when no index is handed out); every
    sleep is between 0 and 300 seconds, so the pass sleeps at most 300
    seconds times that number; the pass ends normally only after the whole
    range, and otherwise with OverflowError or ValueError.  With
    N <= 1751 and an interval that is not negative and fits a double it
    ends normally. *)
Theorem pass_budget {R} (self : ThrottledRetries) (w : World R) :
  exists o evs rest,
    exhaust_float self w = (o, log evs w) /\
    range (attempts self) = slots evs ++ rest /\
    (length (slots evs) <= Z.to_nat (attempts self))%nat /\
    length (sleeps evs) = (length (slots evs) - 1)%nat /\
    Forall (fun q => (0 <= q <= 300)%Q) (sleeps evs) /\
    (Qsum (sleeps evs)
     <= 300 * inject_Z (Z.of_nat (length (slots evs) - 1)))%Q /\
    (o = Return tt -> rest = []) /\
    (forall e, o = Raise e ->
       e = OverflowError \/
       e = ValueError "sleep length must be non-negative") /\
    (attempts self <= 1751 ->
     (0 <= interval self)%Q ->
     Double.overflows (interval self) = false ->
     o = Return tt).
Proof.
  unfold exhaust_float, __iter__. cbn [gi_range].
  destruct (pass_float_summary self (range (attempts self)) w)
    as (o & evs & handed & rest & E & Hr & Hs & Hl & Hf & Hret & He).
  subst handed.
  assert (Hlen : length (sleeps evs) = (length (slots evs) - 1)%nat).
  { rewrite Hl, (filter_positive_prefix _ _ _ Hr).
    destruct (slots evs); simpl; lia. }
  exists o, evs, rest. split; [exact E|]. split; [exact Hr|].
  split; [exact (prefix_length _ _ _ Hr)|]. split; [exact Hlen|].
  split; [exact Hf|]. split.
  { rewrite <- Hlen. apply Qsum_le_cap, Forall_upper, Hf. }
  split; [exact Hret|]. split; [exact He|].
  intros HN HI Hfit.
  pose proof (exhaust_float_eq self w HN HI Hfit) as E2.
  unfold exhaust_float, __iter__ in E2. cbn [gi_range] in E2.
  rewrite E in E2. now injection E2.
Qed.

(** The driver's policy: 25 indices, 24 sleeps, at most 7200 seconds. *)
Lemma pass_budget_witness :
  exists evs,
    exhaust_float (mkThrottledRetries 25 15) start
    = (Return tt, log evs start) /\
    slots evs = range 25 /\
    length (sleeps evs) = 24%nat /\
    (Qsum (sleeps evs) <= 300 * 24)%Q.
Proof.
  destruct (pass_budget (mkThrottledRetries 25 15) start)
    as (o & evs & rest & E & Hr & _ & Hl & _ & Hs & Hret & _ & Hgood).
  assert (Ho : o = Return tt).
  { apply Hgood; [simpl; lia|discriminate|reflexivity]. }
  subst o. rewrite (Hret eq_refl), app_nil_r in Hr.
  exists evs. split; [exact E|]. split; [now symmetry|].
  rewrite Hl in *. rewrite <- Hr in *. split; [reflexivity|exact Hs].
Defined.
